(** * ethminer: the block-production engine of src/eth/bind.go (package ethminer)

  A shallow embedding of [Miner] (Start, Stop, ToggleTurbo, listener,
  startMining, stopMining, mineNewBlock) together with the Go runtime
  notions the code relies on: unbuffered channels, goroutines spawned with
  [go], and the shared [*chain.Block] the miner and its rounds point to.

  Packages chain, event and ethwire are collaborators whose code is not part
  of the sources at hand; they enter as the operations of an [EthManager]
  record, exactly as the Go code reaches them through [chain.EthManager]. *)

From Stdlib.Strings Require Import String Ascii Byte.
From Stdlib Require Import DecimalString.
From Stdlib Require Import ZArith List Bool Lia Permutation Sorted.
Import ListNotations.
Open Scope Z_scope.

Set Implicit Arguments.

(** ** bytes.Compare *)

Module Bytes.

(** [bytes.Compare(a, b)]: lexicographic comparison of two byte slices,
  -1, 0 or +1. *)
Fixpoint Compare (a b : list byte) : Z :=
  match a, b with
  | [], [] => 0
  | [], _ :: _ => -1
  | _ :: _, [] => 1
  | x :: a', y :: b' =>
      match N.compare (Byte.to_N x) (Byte.to_N y) with
      | Lt => -1
      | Gt => 1
      | Eq => Compare a' b'
      end
  end.

(** The test [bytes.Compare(a, b) == 0] of the listener. *)
Definition same (a b : list byte) : bool := Compare a b =? 0.

End Bytes.

(** ** sort.Sort *)

Module Sort.
Section Insertion.
Variable T : Type.
Variable Less : T -> T -> bool.

(** The inner loop of the library's [insertionSort]:
  [for j := i; j > a && data.Less(j, j-1); j-- { data.Swap(j, j-1) }].
  The already ordered prefix is held last element first; the new element
  moves left past every element it is [Less] than. *)
Fixpoint sift (x : T) (rprefix : list T) : list T :=
  match rprefix with
  | [] => [x]
  | y :: r => if Less x y then y :: sift x r else x :: y :: r
  end.

(** [sort.Sort(data)] as the library runs it on short slices (one pass of
  [insertionSort]).  For long slices the library switches to quicksort
  or heapsort, of which only the contract is known: the result is a
  permutation of the input in which no element is [Less] than an earlier
  one; equal elements may be reordered.  The theorems below use nothing
  beyond that contract. *)
Definition Sort (data : list T) : list T :=
  rev (fold_left (fun acc x => sift x acc) data []).

End Insertion.
End Sort.

(** ** Go channels of type [chan struct{}] made with [make(chan struct{})] *)

Module Chan.

(** An unbuffered channel is open, with some number of goroutines parked in
  a send on it, or closed. *)
Inductive state : Type :=
  | Open (senders : nat)
  | Closed.

(** A channel value: [nil] or a reference into the channel store. *)
Definition ref : Type := option nat.

Definition store : Type := list state.

(** [make(chan struct{})] *)
Definition make (h : store) : nat * store := (length h, h ++ [Open 0]).

(** Result of the receive [v, ok := <-c]. *)
Inductive recv_result : Type :=
  | Parked                      (* the receive does not return *)
  | Zero                        (* closed channel: ok = false *)
  | Value (h' : store).         (* a parked sender was served: ok = true *)

Fixpoint update (h : store) (i : nat) (s : state) : store :=
  match h, i with
  | [], _ => []
  | _ :: r, O => s :: r
  | x :: r, S j => x :: update r j s
  end.

(** [<-c]: a receive on [nil], or on an open channel nobody is sending on,
  parks the goroutine; on a closed channel it returns at once with
  ok = false; with a sender parked it takes the value, ok = true. *)
Definition recv (h : store) (c : ref) : recv_result :=
  match c with
  | None => Parked
  | Some i =>
      match nth_error h i with
      | Some Closed => Zero
      | Some (Open (S n)) => Value (update h i (Open n))
      | Some (Open O) => Parked
      | None => Parked
      end
  end.

(** [close(c)]; closing [nil] or a closed channel panics. *)
Definition close (h : store) (c : ref) : option store :=
  match c with
  | None => None
  | Some i =>
      match nth_error h i with
      | Some (Open _) => Some (update h i Closed)
      | _ => None
      end
  end.

End Chan.

(** ** chain.Transaction and chain.Block, as far as the miner looks at them *)

Module Transaction.

(** [Hash] stands for the value of the method [tx.Hash()]. *)
Record t : Type := mk {
  Nonce : Z;
  Sender : list byte;
  Hash : list byte
}.

End Transaction.

(** [chain.TxByNonce] is declared in package chain; its [Less] is taken from
    the call site in mineNewBlock ("Sort the transactions by nonce in case of
    odd network propagation") and from the name of the type: nonces compared
    with [<], nothing else looked at. *)
Definition TxByNonce_Less (a b : Transaction.t) : bool :=
  Transaction.Nonce a <? Transaction.Nonce b.

Definition Receipt : Type := list byte.

Module Block.

(** What has been done to [block.State()], oldest first.  The state object
    itself lives in package chain; the miner only issues these calls on it. *)
Inductive StateOp : Type :=
| SetGasPool (limit : Z)                      (* coinbase.SetGasPool(..) *)
| Applied (txs : list Transaction.t)          (* ProcessTransactions(.., txs) *)
| Rewards                                     (* AccumelateRewards(..) *)
| Update                                      (* State().Update() *)
| Reset.                                      (* block.Undo() *)

(** [Hash] stands for the value of the method [block.Hash()]; the miner
    consults it on blocks carried by events and on the chain head. *)
#[warnings="-register-all"]
Inductive t : Type := mk {
  Hash : list byte;
  PrevHash : list byte;
  Coinbase : list byte;
  Transactions : list Transaction.t;
  Receipts : list Receipt;
  Uncles : list t;
  Nonce : option (list byte);
  State : list StateOp
}.

Definition SetUncles (us : list t) (b : t) : t :=
  mk (Hash b) (PrevHash b) (Coinbase b) (Transactions b) (Receipts b) us
     (Nonce b) (State b).

Definition SetTransactions (txs : list Transaction.t) (b : t) : t :=
  mk (Hash b) (PrevHash b) (Coinbase b) txs (Receipts b) (Uncles b)
     (Nonce b) (State b).

Definition SetReceipts (rs : list Receipt) (b : t) : t :=
  mk (Hash b) (PrevHash b) (Coinbase b) (Transactions b) rs (Uncles b)
     (Nonce b) (State b).

Definition SetNonce (n : list byte) (b : t) : t :=
  mk (Hash b) (PrevHash b) (Coinbase b) (Transactions b) (Receipts b)
     (Uncles b) (Some n) (State b).

Definition onState (op : StateOp) (b : t) : t :=
  mk (Hash b) (PrevHash b) (Coinbase b) (Transactions b) (Receipts b)
     (Uncles b) (Nonce b) (State b ++ [op]).

(** [block.Undo()] *)
Definition Undo (b : t) : t := onState Reset b.

End Block.

(** ** The collaborators reached through chain.EthManager *)

Definition error : Type := String.string.

(** The five results of [StateManager().ProcessTransactions]. *)
Record Processed : Type := mkProcessed {
  receipts : list Receipt;
  handled : list Transaction.t;          (* txs *)
  unhandledTxs : list Transaction.t;
  erroneous : list Transaction.t;
  err : option error
}.

(** [Chain] is the state behind ChainManager() and StateManager(), [Pool] the
    state behind TxPool(). *)
Record EthManager (Chain Pool : Type) : Type := mkEthManager {
  CurrentBlock : Chain -> Block.t;
  NewBlock : Chain -> list byte -> Block.t;
  GetBlock : Chain -> list byte -> option Block.t;
  CalcGasLimit : Block.t -> option Block.t -> Z;
  ProcessTransactions : Chain -> Block.t -> list Transaction.t -> Processed;
  Process : Chain -> Block.t -> option error * Chain;
  Flush : Pool -> list Transaction.t * Pool;
  CurrentTransactions : Pool -> list Transaction.t;
  RemoveSet : list Transaction.t -> Pool -> Pool
}.

(** ** The Miner *)

Record Miner : Type := mkMiner {
  coinbase : list byte;
  txs : list Transaction.t;
  uncles : list Block.t;
  block : option nat;              (* *chain.Block: nil or an address *)
  events : option nat;             (* event.Subscription: nil or a subscription *)
  powQuitChan : Chan.ref;
  powDone : Chan.ref;
  turbo : bool
}.

Definition Started : Z := 0.
Definition Stopped : Z := 1.

(** The values the listener's type switch distinguishes. *)
Inductive Event : Type :=
| NewBlockEvent (Block : Block.t)
| TxPreEvent (Tx : Transaction.t).

Inductive LogEntry : Type :=
| Infoln (msg : String.string)
| Infoln_err (e : error)
| Debugln (e : error)
| Infof_mining (n : nat)
| Infof_mined (h : list byte)
| Infoln_block (b : Block.t).

(** What the miner does to the outside, in order. *)
Inductive Effect : Type :=
| Println (msg : String.string)
| Log (e : LogEntry)
| Post_Event (ty : Z)                    (* mux.Post(Event{ty, miner}) *)
| Post_NewBlockEvent (b : Block.t)       (* mux.Post(chain.NewBlockEvent{b}) *)
| Broadcast (b : Block.t)
| Turbo (on : bool).                     (* pow.Turbo(on) *)

(** A goroutine started by [go miner.listener()]. *)
Inductive Listener : Type :=
| Entered                        (* started, first statement not yet run *)
| Selecting                      (* at the select of the for loop *)
| InStopMining (e : Event).      (* parked in the receive of stopMining *)

(** A goroutine started by [go miner.mineNewBlock()]. *)
Inductive Round : Type :=
| Spawned                                        (* started, nothing run yet *)
| Searching (template : nat) (stop : Chan.ref)   (* inside pow.Search *)
| Returned.

(** Outcome of a piece of sequential code. *)
Inductive Outcome (A : Type) : Type :=
| Done (a : A)
| Parks                      (* blocked in a channel operation *)
| Panics.

Arguments Parks {A}.
Arguments Panics {A}.

Definition bind {A B : Type} (o : Outcome A) (k : A -> Outcome B) : Outcome B :=
  match o with
  | Done a => k a
  | Parks => Parks
  | Panics => Panics
  end.

Fixpoint list_set {A : Type} (l : list A) (i : nat) (a : A) : list A :=
  match l, i with
  | [], _ => []
  | _ :: r, O => a :: r
  | x :: r, S j => x :: list_set r j a
  end.

Definition Miner_txs (v : list Transaction.t) (m : Miner) : Miner :=
  mkMiner (coinbase m) v (uncles m) (block m) (events m) (powQuitChan m)
          (powDone m) (turbo m).

Definition Miner_uncles (v : list Block.t) (m : Miner) : Miner :=
  mkMiner (coinbase m) (txs m) v (block m) (events m) (powQuitChan m)
          (powDone m) (turbo m).

Definition Miner_block (v : option nat) (m : Miner) : Miner :=
  mkMiner (coinbase m) (txs m) (uncles m) v (events m) (powQuitChan m)
          (powDone m) (turbo m).

Definition Miner_events (v : option nat) (m : Miner) : Miner :=
  mkMiner (coinbase m) (txs m) (uncles m) (block m) v (powQuitChan m)
          (powDone m) (turbo m).

Definition Miner_powQuitChan (v : Chan.ref) (m : Miner) : Miner :=
  mkMiner (coinbase m) (txs m) (uncles m) (block m) (events m) v
          (powDone m) (turbo m).

Definition Miner_powDone (v : Chan.ref) (m : Miner) : Miner :=
  mkMiner (coinbase m) (txs m) (uncles m) (block m) (events m)
          (powQuitChan m) v (turbo m).

Definition Miner_turbo (v : bool) (m : Miner) : Miner :=
  mkMiner (coinbase m) (txs m) (uncles m) (block m) (events m)
          (powQuitChan m) (powDone m) v.

(** [NewDefaultMiner(coinbase, ethereum)] *)
Definition NewDefaultMiner (cb : list byte) : Miner :=
  mkMiner cb [] [] None None None None false.

Section Ethminer.

Variables Chain Pool : Type.
Variable eth : EthManager Chain Pool.

(** The miner, the Go heap it points into, its goroutines, and the
    collaborators' state. *)
Record World : Type := mkWorld {
  miner : Miner;
  chans : Chan.store;
  blocks : list Block.t;             (* the blocks behind *chain.Block *)
  rounds : list Round;
  listeners : list Listener;
  subs : list bool;                  (* per subscription: still delivering *)
  pool : Pool;
  chain : Chain;
  out : list Effect
}.

Definition on_miner (f : Miner -> Miner) (w : World) : World :=
  mkWorld (f (miner w)) (chans w) (blocks w) (rounds w) (listeners w) (subs w)
          (pool w) (chain w) (out w).

Definition with_chans (v : Chan.store) (w : World) : World :=
  mkWorld (miner w) v (blocks w) (rounds w) (listeners w) (subs w)
          (pool w) (chain w) (out w).

Definition with_blocks (v : list Block.t) (w : World) : World :=
  mkWorld (miner w) (chans w) v (rounds w) (listeners w) (subs w)
          (pool w) (chain w) (out w).

Definition with_rounds (v : list Round) (w : World) : World :=
  mkWorld (miner w) (chans w) (blocks w) v (listeners w) (subs w)
          (pool w) (chain w) (out w).

Definition with_listeners (v : list Listener) (w : World) : World :=
  mkWorld (miner w) (chans w) (blocks w) (rounds w) v (subs w)
          (pool w) (chain w) (out w).

Definition with_subs (v : list bool) (w : World) : World :=
  mkWorld (miner w) (chans w) (blocks w) (rounds w) (listeners w) v
          (pool w) (chain w) (out w).

Definition with_pool (v : Pool) (w : World) : World :=
  mkWorld (miner w) (chans w) (blocks w) (rounds w) (listeners w) (subs w)
          v (chain w) (out w).

Definition with_chain (v : Chain) (w : World) : World :=
  mkWorld (miner w) (chans w) (blocks w) (rounds w) (listeners w) (subs w)
          (pool w) v (out w).

Definition with_out (v : list Effect) (w : World) : World :=
  mkWorld (miner w) (chans w) (blocks w) (rounds w) (listeners w) (subs w)
          (pool w) (chain w) v.

Definition emit (e : Effect) (w : World) : World := with_out (out w ++ [e]) w.

(** A freshly constructed miner next to a given chain and pool. *)
Definition boot (cb : list byte) (c : Chain) (p : Pool) : World :=
  mkWorld (NewDefaultMiner cb) [] [] [] [] [] p c [].

(** *** ToggleTurbo *)

Definition ToggleTurbo (w : World) : World :=
  let w1 := on_miner (fun m => Miner_turbo (negb (turbo m)) m) w in
  emit (Turbo (turbo (miner w1))) w1.

(** *** Start *)

Definition Start (w : World) : World :=
  let '(flushed, p) := Flush eth (pool w) in
  let w1 := on_miner (Miner_txs flushed) (with_pool p w) in
  let b := NewBlock eth (chain w1) (coinbase (miner w1)) in
  let w2 := on_miner (Miner_block (Some (length (blocks w1))))
                     (with_blocks (blocks w1 ++ [b]) w1) in
  let w3 := on_miner (Miner_events (Some (length (subs w2))))
                     (with_subs (subs w2 ++ [true]) w2) in
  let w4 := with_listeners (listeners w3 ++ [Entered]) w3 in
  emit (Post_Event Started) (emit (Log (Infoln "Started"%string)) w4).

(** *** Stop *)

(** [miner.events.Unsubscribe()] is a method call on an interface value: it
    panics while [events] is nil, that is before the first Start. *)
Definition Stop (w : World) : Outcome World :=
  let w1 := emit (Log (Infoln "Stopping..."%string)) w in
  match events (miner w1) with
  | None => Panics
  | Some s =>
      let w2 := with_subs (list_set (subs w1) s false) w1 in
      Done (emit (Post_Event Stopped) w2)
  end.

(** *** startMining *)

Definition startMining (w : World) : World :=
  let w1 :=
    match powDone (miner w) with
    | None =>
        let '(c, h) := Chan.make (chans w) in
        on_miner (Miner_powDone (Some c)) (with_chans h w)
    | Some _ => w
    end in
  let '(q, h) := Chan.make (chans w1) in
  let w2 := on_miner (Miner_powQuitChan (Some q)) (with_chans h w1) in
  with_rounds (rounds w2 ++ [Spawned]) w2.

(** *** stopMining *)

(** The receive [_, isopen := <-miner.powQuitChan] and the conditional close.
    The commented-out [<-miner.powDone] of the source has no counterpart. *)
Definition stopMining_recv (w : World) : Outcome World :=
  match Chan.recv (chans w) (powQuitChan (miner w)) with
  | Chan.Parked => Parks
  | Chan.Zero => Done w
  | Chan.Value h =>
      match Chan.close h (powQuitChan (miner w)) with
      | Some h' => Done (with_chans h' w)
      | None => Panics
      end
  end.

Definition stopMining (w : World) : Outcome World :=
  stopMining_recv (emit (Println "stop mining"%string) w).

(** *** listener: the two cases of the type switch, after stopMining *)

(** [found] of the inner loop over [block.Transactions()]. *)
Definition in_block (b : Block.t) (tx : Transaction.t) : bool :=
  existsb (fun othertx =>
             Bytes.same (Transaction.Hash tx) (Transaction.Hash othertx))
          (Block.Transactions b).

Definition onNewBlock (b : Block.t) (w : World) : World :=
  let head := CurrentBlock eth (chain w) in
  let w1 :=
    if Bytes.same (Block.Hash head) (Block.Hash b) then
      on_miner (fun m => Miner_txs (filter (fun tx => negb (in_block b tx))
                                           (txs m)) m) w
    else if Bytes.same (Block.PrevHash b) (Block.PrevHash head) then
      on_miner (fun m => Miner_uncles (uncles m ++ [b]) m)
               (emit (Log (Infoln "Adding uncle block"%string)) w)
    else w in
  startMining w1.

(** The loop [for _, ctx := range miner.txs]: leaves as soon as a hash
    matches, and calls startMining after every transaction that does not. *)
Fixpoint scan (tx : Transaction.t) (l : list Transaction.t) (w : World)
  : bool * World :=
  match l with
  | [] => (false, w)
  | ctx :: r =>
      if Bytes.same (Transaction.Hash ctx) (Transaction.Hash tx)
      then (true, w)
      else scan tx r (startMining w)
  end.

Definition onTxPre (tx : Transaction.t) (w : World) : Outcome World :=
  let '(found, w1) := scan tx (txs (miner w)) w in
  if found then Done w1
  else
    match block (miner w1) with
    | None => Panics
    | Some p =>
        let w2 :=
          match nth_error (blocks w1) p with
          | Some b => with_blocks (list_set (blocks w1) p (Block.Undo b)) w1
          | None => w1
          end in
        Done (on_miner (fun m => Miner_txs (txs m ++ [tx]) m) w2)
    end.

Definition afterStop (e : Event) (w : World) : Outcome World :=
  match e with
  | NewBlockEvent b => Done (onNewBlock b w)
  | TxPreEvent tx => onTxPre tx w
  end.

(** One event through the listener's [case event := <-miner.events.Chan()]. *)
Definition handleEvent (e : Event) (w : World) : Outcome World :=
  bind (stopMining w) (afterStop e).

(** *** mineNewBlock *)

(** The block [self.block] points to. *)
Definition the_block (w : World) : option Block.t :=
  match block (miner w) with
  | Some p => nth_error (blocks w) p
  | None => None
  end.

(** A method call or field write through [self.block]. *)
Definition on_block (f : Block.t -> Block.t) (w : World) : World :=
  match block (miner w) with
  | Some p =>
      match nth_error (blocks w) p with
      | Some b => with_blocks (list_set (blocks w) p (f b)) w
      | None => w
      end
  | None => w
  end.

(** From [self.block = ...NewBlock(self.coinbase)] to [coinbase.SetGasPool]. *)
Definition prepare (w : World) : World :=
  let w1 :=
    on_miner (Miner_block (Some (length (blocks w))))
      (with_blocks
         (blocks w ++ [NewBlock eth (chain w) (coinbase (miner w))]) w) in
  let w2 :=
    if (0 <? length (uncles (miner w1)))%nat
    then on_block (Block.SetUncles (uncles (miner w1))) w1
    else w1 in
  let w3 :=
    on_miner (fun m => Miner_txs (Sort.Sort TxByNonce_Less (txs m)) m) w2 in
  on_block
    (fun b =>
       Block.onState
         (Block.SetGasPool
            (CalcGasLimit eth b (GetBlock eth (chain w3) (Block.PrevHash b))))
         b)
    w3.

(** From the return of ProcessTransactions, whose results are [r], to the
    "Mining on block" line. *)
Definition settle (r : Processed) (w : World) : World :=
  let w1 := on_block (Block.onState (Block.Applied (txs (miner w)))) w in
  let w2 :=
    match err r with
    | Some e => emit (Log (Debugln e)) w1
    | None => w1
    end in
  let w3 := with_pool (RemoveSet eth (erroneous r) (pool w2)) w2 in
  let w4 := on_miner (Miner_txs (handled r ++ unhandledTxs r)) w3 in
  let w5 := on_block (Block.SetTransactions (handled r)) w4 in
  let w6 := on_block (Block.SetReceipts (receipts r)) w5 in
  let w7 := on_block (Block.onState Block.Rewards) w6 in
  let w8 := on_block (Block.onState Block.Update) w7 in
  emit (Log (Infof_mining (length (txs (miner w8))))) w8.

(** What ProcessTransactions returns when called at the end of [prepare]. *)
Definition report (w : World) : option Processed :=
  match the_block w with
  | Some b => Some (ProcessTransactions eth (chain w) b (txs (miner w)))
  | None => None
  end.

(** mineNewBlock up to the call [self.pow.Search(self.block, self.powQuitChan)],
    run by round [i]. *)
Definition mineNewBlock_search (i : nat) (w : World) : Outcome World :=
  let w1 := prepare w in
  match report w1 with
  | None => Panics
  | Some r =>
      let w2 := settle r w1 in
      match block (miner w2) with
      | None => Panics
      | Some p =>
          Done (with_rounds
                  (list_set (rounds w2) i
                            (Searching p (powQuitChan (miner w2)))) w2)
      end
  end.

(** mineNewBlock after Search has returned [nonce] to round [i]. *)
Definition mineNewBlock_return (i : nat) (nonce : option (list byte))
  (w : World) : Outcome World :=
  match nonce with
  | None => Done (with_rounds (list_set (rounds w) i Returned) w)
  | Some n =>
      let w1 := on_block (Block.SetNonce n) w in
      match the_block w1 with
      | None => Panics
      | Some b =>
          let '(e, c) := Process eth (chain w1) b in
          let w2 := with_chain c w1 in
          let w3 :=
            match e with
            | Some x => emit (Log (Infoln_err x)) w2
            | None =>
                let w4 :=
                  emit (Log (Infoln_block b))
                    (emit (Log (Infof_mined (Block.Hash b)))
                       (emit (Broadcast b) w2)) in
                emit (Post_NewBlockEvent b)
                  (on_miner
                     (Miner_txs (CurrentTransactions eth (pool w4))) w4)
            end in
          let w5 := startMining w3 in
          Done (with_rounds (list_set (rounds w5) i Returned) w5)
      end
  end.

(** *** The program as a transition system *)

Inductive Action : Type :=
| CallStart
| CallStop
| CallToggleTurbo
| ListenerEnters (l : nat)            (* listener runs its first startMining *)
| Deliver (l : nat) (e : Event)       (* the events case of the select *)
| Resume (l : nat)                    (* a parked stopMining gets its receive *)
| PowDoneReady (l : nat)              (* the powDone case of the select *)
| RoundBegins (r : nat)               (* mineNewBlock runs up to Search *)
| SearchReturns (r : nat) (nonce : option (list byte))
| ChainMoves (c : Chain)              (* other components change the chain *)
| PoolMoves (p : Pool).               (* other components change the pool *)

Definition finished {A : Type} (o : Outcome A) : option A :=
  match o with
  | Done a => Some a
  | _ => None
  end.

Definition delivering (w : World) : bool :=
  match events (miner w) with
  | Some s => nth s (subs w) false
  | None => false
  end.

Definition exec (a : Action) (w : World) : option World :=
  match a with
  | CallStart => Some (Start w)
  | CallStop => finished (Stop w)
  | CallToggleTurbo => Some (ToggleTurbo w)
  | ListenerEnters l =>
      match nth_error (listeners w) l with
      | Some Entered =>
          let w1 := startMining w in
          Some (with_listeners (list_set (listeners w1) l Selecting) w1)
      | _ => None
      end
  | Deliver l e =>
      match nth_error (listeners w) l with
      | Some Selecting =>
          if delivering w then
            match handleEvent e w with
            | Done w1 => Some w1
            | Parks =>
                let w1 := emit (Println "stop mining"%string) w in
                Some (with_listeners
                        (list_set (listeners w1) l (InStopMining e)) w1)
            | Panics => None
            end
          else None
      | _ => None
      end
  | Resume l =>
      match nth_error (listeners w) l with
      | Some (InStopMining e) =>
          match bind (stopMining_recv w) (afterStop e) with
          | Done w1 =>
              Some (with_listeners (list_set (listeners w1) l Selecting) w1)
          | _ => None
          end
      | _ => None
      end
  | PowDoneReady l =>
      match nth_error (listeners w) l with
      | Some Selecting =>
          match Chan.recv (chans w) (powDone (miner w)) with
          | Chan.Parked => None
          | Chan.Zero => Some (startMining w)
          | Chan.Value h => Some (startMining (with_chans h w))
          end
      | _ => None
      end
  | RoundBegins r =>
      match nth_error (rounds w) r with
      | Some Spawned => finished (mineNewBlock_search r w)
      | _ => None
      end
  | SearchReturns r nonce =>
      match nth_error (rounds w) r with
      | Some (Searching _ _) => finished (mineNewBlock_return r nonce w)
      | _ => None
      end
  | ChainMoves c => Some (with_chain c w)
  | PoolMoves p => Some (with_pool p w)
  end.

Fixpoint run (l : list Action) (w : World) : option World :=
  match l with
  | [] => Some w
  | a :: r =>
      match exec a w with
      | Some w1 => run r w1
      | None => None
      end
  end.

(** The worlds a freshly constructed miner can get to. *)
Definition reachable (w : World) : Prop :=
  exists cb c p l, run l (boot cb c p) = Some w.

Definition is_searching (r : Round) : bool :=
  match r with
  | Searching _ _ => true
  | _ => false
  end.

(** The rounds that are inside pow.Search. *)
Definition searching (w : World) : nat :=
  length (filter is_searching (rounds w)).

End Ethminer.

Arguments Done {A} a.

(** The results [r] with the error taken away. *)
Definition quiet (r : Processed) : Processed :=
  mkProcessed (receipts r) (handled r) (unhandledTxs r) (erroneous r) None.




(** The number of times the scan loop calls startMining: once for every
    transaction in front of the first one with the hash looked for. *)
Fixpoint restarts (tx : Transaction.t) (l : list Transaction.t) : nat :=
  match l with
  | [] => O
  | ctx :: r =>
      if Bytes.same (Transaction.Hash ctx) (Transaction.Hash tx)
      then O
      else S (restarts tx r)
  end.

(** The template of a round written out as a value: as it stands when
    ProcessTransactions is called, and as it is handed to Search. *)
Definition drafted {Chain Pool : Type} (eth : EthManager Chain Pool)
  (w : World Chain Pool) : Block.t :=
  let b0 := NewBlock eth (chain w) (coinbase (miner w)) in
  let b1 :=
    if (0 <? length (uncles (miner w)))%nat
    then Block.SetUncles (uncles (miner w)) b0
    else b0 in
  Block.onState
    (Block.SetGasPool
       (CalcGasLimit eth b1 (GetBlock eth (chain w) (Block.PrevHash b1))))
    b1.

Definition sealed (r : Processed) (input : list Transaction.t) (b : Block.t)
  : Block.t :=
  Block.onState Block.Update
    (Block.onState Block.Rewards
       (Block.SetReceipts (receipts r)
          (Block.SetTransactions (handled r)
             (Block.onState (Block.Applied input) b)))).

(** The results ProcessTransactions hands back to the round begun in [w]. *)
Definition reported {Chain Pool : Type} (eth : EthManager Chain Pool)
  (w : World Chain Pool) : Processed :=
  ProcessTransactions eth (chain w) (drafted eth w)
    (Sort.Sort TxByNonce_Less (txs (miner w))).

(** The same collaborators, except that ProcessTransactions never reports an
    error. *)
Definition silenced {Chain Pool : Type} (eth : EthManager Chain Pool)
  : EthManager Chain Pool :=
  mkEthManager (CurrentBlock eth) (NewBlock eth) (GetBlock eth)
    (CalcGasLimit eth)
    (fun c b l => quiet (ProcessTransactions eth c b l))
    (Process eth) (Flush eth) (CurrentTransactions eth) (RemoveSet eth).

(** Every channel made so far is open, and nobody is parked sending on it. *)
Definition all_open {Chain Pool : Type} (w : World Chain Pool) : Prop :=
  Forall (fun c => c = Chan.Open 0) (chans w).



(** ** A small chain and pool to run the miner on *)

Module Scenario.

(** The chain is its head block; the pool is the list of its transactions. *)
Definition sim : EthManager Block.t (list Transaction.t) :=
  mkEthManager
    (fun c => c)
    (fun c cb => Block.mk [] (Block.Hash c) cb [] [] [] None [])
    (fun c h => if Bytes.same h (Block.Hash c) then Some c else None)
    (fun _ _ => 1000000)
    (fun _ _ l =>
       let bad := filter (fun tx => (length (Transaction.Sender tx) =? 0)%nat) l in
       let good := filter (fun tx => negb (length (Transaction.Sender tx) =? 0)%nat) l in
       mkProcessed
         (map Transaction.Hash (filter (fun tx => Transaction.Nonce tx <? 100) good))
         (filter (fun tx => Transaction.Nonce tx <? 100) good)
         (filter (fun tx => negb (Transaction.Nonce tx <? 100)) good)
         bad
         (match bad with [] => None | _ => Some "invalid transaction"%string end))
    (fun _ b => (None, b))
    (fun p => (p, []))
    (fun p => p)
    (fun l p =>
       filter (fun tx =>
                 negb (existsb (fun x => Bytes.same (Transaction.Hash tx)
                                                    (Transaction.Hash x)) l)) p).

Definition alice : list byte := [x0a].

Definition txA : Transaction.t := Transaction.mk 0 alice [xa1].
Definition txB : Transaction.t := Transaction.mk 1 alice [xb2].
Definition txC : Transaction.t := Transaction.mk 2 alice [xc3].
Definition txBad : Transaction.t := Transaction.mk 3 [] [xd4].
Definition txLate : Transaction.t := Transaction.mk 100 alice [xe5].


Definition genesis : Block.t := Block.mk [x01] [x00] [] [] [] [] None [].

(** A block on top of [genesis] that is the head, and a sibling of it. *)
Definition head : Block.t := Block.mk [x02] [x01] [] [txA] [] [] None [].

Definition me : list byte := [xc0].

(** A miner made by NewDefaultMiner, not started. *)
Definition fresh (p : list Transaction.t) : World Block.t (list Transaction.t) :=
  boot me genesis p.

(** Started, the listener in its loop, the first round inside Search. *)
Definition first_round : list (Action Block.t (list Transaction.t)) :=
  [CallStart _ _; ListenerEnters _ _ 0; RoundBegins _ _ 0].

(** Start called twice, both listeners in their loop, both rounds begun. *)
Definition started_twice : list (Action Block.t (list Transaction.t)) :=
  [CallStart _ _; CallStart _ _; ListenerEnters _ _ 0; ListenerEnters _ _ 1;
   RoundBegins _ _ 0; RoundBegins _ _ 1].

(** A started miner on top of [head] whose quit channel is closed: [rs] are
    its mineNewBlock goroutines, [l] and [us] its working sets. *)
Definition halted (l : list Transaction.t) (us : list Block.t) (rs : list Round)
  : World Block.t (list Transaction.t) :=
  mkWorld
    (mkMiner me l us (Some 0%nat) (Some 0%nat) (Some 0%nat) (Some 1%nat) false)
    [Chan.Closed; Chan.Open 0]
    [Block.mk [] [x02] me [] [] [] None []]
    rs
    [Selecting]
    [true]
    l
    head
    [].

(** The world a piece of code ends in, [w] if it does not end. *)
Definition landed (o : Outcome (World Block.t (list Transaction.t)))
  (w : World Block.t (list Transaction.t)) : World Block.t (list Transaction.t) :=
  match o with
  | Done w' => w'
  | _ => w
  end.

(** The new head arrives at a miner that holds one of its transactions. *)
Definition before_head : World Block.t (list Transaction.t) :=
  halted [txA; txB] [] [Returned].




(** A started miner: one listener in its loop, one round inside Search. *)
Definition running : World Block.t (list Transaction.t) :=
  match run sim first_round (fresh [txA; txB]) with
  | Some w => w
  | None => fresh []
  end.

End Scenario.

(** ** Counting goroutines *)






(** The hashes of a transaction set. *)
Definition hashes (l : list Transaction.t) : list (list byte) :=
  map Transaction.Hash l.

(** ** A chain that rejects every mined block *)

Module Rejecting.

(** As [Scenario.sim], except that Process returns an error. *)
Definition strict : EthManager Block.t (list Transaction.t) :=
  mkEthManager
    (CurrentBlock Scenario.sim) (NewBlock Scenario.sim)
    (GetBlock Scenario.sim) (CalcGasLimit Scenario.sim)
    (ProcessTransactions Scenario.sim)
    (fun c _ => (Some "invalid block"%string, c))
    (Flush Scenario.sim) (CurrentTransactions Scenario.sim)
    (RemoveSet Scenario.sim).

(** The template of the first round of [Scenario.running]. *)
Definition template : Block.t :=
  Block.mk [] [x01] Scenario.me [Scenario.txA; Scenario.txB] [[xa1]; [xb2]] []
           None
           [Block.SetGasPool 1000000;
            Block.Applied [Scenario.txA; Scenario.txB];
            Block.Rewards; Block.Update].

End Rejecting.

(** * downloader: PublicDownloaderAPI of src/eth/bind.go (package downloader) *)

Module Downloader.

(** [map[string]V] as the list of its entries, one per key. *)
Section StringMap.

Variable V : Type.

Definition smap : Type := list (string * V).

Fixpoint lookup (k : string) (m : smap) : option V :=
  match m with
  | [] => None
  | (k', v) :: r => if String.eqb k' k then Some v else lookup k r
  end.

(** [delete(m, k)] *)
Definition delete (k : string) (m : smap) : smap :=
  filter (fun e => negb (String.eqb (fst e) k)) m.

(** [m[k] = v] *)
Definition insert (k : string) (v : V) (m : smap) : smap :=
  (k, v) :: delete k m.

Definition keys (m : smap) : list string := map fst m.

End StringMap.

Record Progress : Type := mkProgress {
  Origin : Z;
  Current : Z;
  Height : Z;
  Pulled : Z;
  Known : Z
}.

Record SyncingResult : Type := mkSyncingResult {
  Syncing_ : bool;
  Status : Progress
}.

(** The dynamic type of [event.Data] as the type switch sees it. *)
Inductive EventData : Type :=
| StartEvent
| DoneEvent
| FailedEvent
| OtherData.

(** The value of [notification] after the type switch. *)
Inductive Notification : Type :=
| Nil                                  (* no case taken *)
| Result (r : SyncingResult)           (* &SyncingResult{...} *)
| False.                               (* false *)

(** What [sub.Notify] returns. *)
Inductive NotifyError : Type :=
| NotifyOk
| ErrNotificationNotFound
| OtherNotifyError (msg : string).

Definition is_not_found (e : NotifyError) : bool :=
  match e with
  | ErrNotificationNotFound => true
  | _ => false
  end.

(** What Syncing returns besides the subscription. *)
Inductive SyncingError : Type :=
| ErrNotificationsUnsupported
| NewSubscriptionError (msg : string).

Section API.

(** [Sub] stands for rpc.Subscription, [Notifier] for rpc.Notifier; their
    methods, and the downloader's Progress, are taken as given. *)
Variables Sub Notifier : Type.
Variable ID : Sub -> string.
Variable Notify : Sub -> Notification -> NotifyError.
Variable NewSubscription : Notifier -> Sub + string.
Variable d_Progress : Z * Z * Z * Z * Z.

Record API : Type := mkAPI {
  syncSubscriptions : smap Sub;
  notified : list (string * Notification)     (* the calls of Notify, in order *)
}.

(** The type switch of run. *)
Definition notification_for (e : EventData) : Notification :=
  match e with
  | StartEvent =>
      let '(o, c, h, p, k) := d_Progress in
      Result (mkSyncingResult true (mkProgress o c h p k))
  | DoneEvent => False
  | FailedEvent => False
  | OtherData => Nil
  end.

(** The loop over the subscriptions: each is notified, and deleted when
    Notify says the notification was not found.  Go visits the entries of a
    map in no fixed order; the entries are taken here in the order of the
    list. *)
Fixpoint notify_all (n : Notification) (todo m : smap Sub)
  (log : list (string * Notification))
  : smap Sub * list (string * Notification) :=
  match todo with
  | [] => (m, log)
  | (id, sub) :: r =>
      match Notify sub n with
      | ErrNotificationNotFound =>
          notify_all n r (delete id m) (log ++ [(id, n)])
      | _ => notify_all n r m (log ++ [(id, n)])
      end
  end.

(** Whether some entry of [todo] has the key [k] and a subscription for which
    Notify does not find the notification. *)
Definition dropped (n : Notification) (k : string) (todo : smap Sub) : bool :=
  existsb (fun e => String.eqb (fst e) k && is_not_found (Notify (snd e) n))
          todo.

(** One turn of the loop of run, for the event [e]. *)
Definition run_event (e : EventData) (api : API) : API :=
  let n := notification_for e in
  let '(m, log) :=
    notify_all n (syncSubscriptions api) (syncSubscriptions api)
               (notified api) in
  mkAPI m log.

(** run, for the events the channel delivers until it is closed. *)
Definition run (es : list EventData) (api : API) : API :=
  fold_left (fun a e => run_event e a) es api.

(** The function Syncing hands to NewSubscription, called with [id]. *)
Definition unsubscribed (id : string) (api : API) : API :=
  mkAPI (delete id (syncSubscriptions api)) (notified api).

(** Syncing: [ctx] holds a notifier or none. *)
Definition Syncing (ctx : option Notifier) (api : API)
  : (Sub + SyncingError) * API :=
  match ctx with
  | None => (inr ErrNotificationsUnsupported, api)
  | Some notifier =>
      match NewSubscription notifier with
      | inr e => (inr (NewSubscriptionError e), api)
      | inl subscription =>
          (inl subscription,
           mkAPI (insert (ID subscription) subscription
                         (syncSubscriptions api))
                 (notified api))
      end
  end.

End API.

End Downloader.

(** ** Two subscriptions to run the downloader API on *)

Module DownloaderScenario.

Import Downloader.

(** A subscription is its id and whether the server still knows it. *)
Definition sub : Type := (string * bool)%type.

Definition sub_ID (s : sub) : string := fst s.

Definition sub_Notify (s : sub) (n : Notification) : NotifyError :=
  if snd s then NotifyOk else ErrNotificationNotFound.

(** The notifier hands out the subscription it is made of. *)
Definition new_sub (s : sub) : sub + string := inl s.

Definition progress : Z * Z * Z * Z * Z := (0, 5, 9, 0, 0).

Definition two_subs : API sub :=
  mkAPI [("a"%string, ("a"%string, true)); ("b"%string, ("b"%string, false))]
        [].

End DownloaderScenario.

(** * eth: the Ethereum service of src/eth/bind.go (package eth) *)

Module Ethereum.

Definition epochLength : Z := 30000.
Definition ethashRevision : Z := 23.
Definition autoDAGepochHeight : Z := epochLength / 2.

(** A uint64 after an arithmetic operation. *)
Definition uint64 (z : Z) : Z := z mod 2 ^ 64.

(** *** fmt.Sprintf with the verbs %d and %x *)

Definition fmt_d (z : Z) : string := NilZero.string_of_int (Z.to_int z).

Definition hex_digit (n : N) : ascii :=
  match n with
  | 0%N => "0" | 1%N => "1" | 2%N => "2" | 3%N => "3"
  | 4%N => "4" | 5%N => "5" | 6%N => "6" | 7%N => "7"
  | 8%N => "8" | 9%N => "9" | 10%N => "a" | 11%N => "b"
  | 12%N => "c" | 13%N => "d" | 14%N => "e" | _ => "f"
  end%char.

(** %x of a byte slice: two lower-case digits per byte. *)
Fixpoint fmt_x (bs : list byte) : string :=
  match bs with
  | [] => EmptyString
  | b :: r =>
      String (hex_digit (Byte.to_N b / 16))
             (String (hex_digit (Byte.to_N b mod 16)) (fmt_x r))
  end.

(** The value of a lower-case hexadecimal digit; used to read [fmt_x] back. *)
Definition hex_value (c : ascii) : option N :=
  match N_of_ascii c with
  | 48%N => Some 0%N | 49%N => Some 1%N | 50%N => Some 2%N | 51%N => Some 3%N
  | 52%N => Some 4%N | 53%N => Some 5%N | 54%N => Some 6%N | 55%N => Some 7%N
  | 56%N => Some 8%N | 57%N => Some 9%N | 97%N => Some 10%N | 98%N => Some 11%N
  | 99%N => Some 12%N | 100%N => Some 13%N | 101%N => Some 14%N
  | 102%N => Some 15%N
  | _ => None
  end.

Fixpoint unhex (s : string) : option (list byte) :=
  match s with
  | EmptyString => Some []
  | String _ EmptyString => None
  | String h (String l r) =>
      match hex_value h, hex_value l, unhex r with
      | Some a, Some b, Some bs =>
          match Byte.of_N (a * 16 + b) with
          | Some x => Some (x :: bs)
          | None => None
          end
      | _, _, _ => None
      end
  end.

(** *** dagFiles *)

Section DagFiles.

(** GetSeedHash is not part of the sources at hand: it is taken as given,
    with its two results. *)
Variable GetSeedHash : Z -> list byte * option error.

(** [None] stands for the panic of [seedHash[:8]] on a slice shorter than 8
    (length and capacity are taken to be the same). *)
Definition dagFiles (epoch : Z) : option (string * string) :=
  let '(seedHash, _) := GetSeedHash (uint64 (epoch * epochLength)) in
  if (length seedHash <? 8)%nat then None
  else
    let dag :=
      ("full-R" ++ fmt_d ethashRevision ++ "-" ++ fmt_x (firstn 8 seedHash))%string
    in Some (dag, ("full-R" ++ dag)%string).

End DagFiles.

(** *** Stop, WaitForShutdown, Solc, SetSolc *)

(** The calls Stop makes on the parts of the service. *)
Inductive Call : Type :=
| blockchain_Stop
| protocolManager_Stop
| txPool_Stop
| eventMux_Stop
| chainDb_Close
| dappDb_Close.

Section Service.

(** [Solidity] stands for compiler.Solidity, and compiler.New is taken as
    given, with its two results. *)
Variable Solidity : Type.
Variable compiler_New : string -> option Solidity * option error.

(** The fields of Ethereum that the methods below read or write, the
    channel store [shutdownChan] points into, and the calls made so far. *)
Record t : Type := mk {
  shutdownChan : Chan.ref;
  chans : Chan.store;
  SolcPath : string;
  solc : option Solidity;
  calls : list Call
}.

(** These fields as New sets them: [shutdownChan: make(chan bool)],
    [SolcPath: config.SolcPath], solc left nil. *)
Definition New_fields (solcPath : string) : t :=
  let '(c, h) := Chan.make [] in
  mk (Some c) h solcPath None [].

Definition Stop (s : t) : Outcome t :=
  let done :=
    calls s ++ [blockchain_Stop; protocolManager_Stop; txPool_Stop;
                eventMux_Stop; chainDb_Close; dappDb_Close] in
  match Chan.close (chans s) (shutdownChan s) with
  | Some h => Done (mk (shutdownChan s) h (SolcPath s) (solc s) done)
  | None => Panics
  end.

Definition WaitForShutdown (s : t) : Outcome t :=
  match Chan.recv (chans s) (shutdownChan s) with
  | Chan.Parked => Parks
  | Chan.Zero => Done s
  | Chan.Value h => Done (mk (shutdownChan s) h (SolcPath s) (solc s) (calls s))
  end.

Definition Solc (s : t) : (option Solidity * option error) * t :=
  match solc s with
  | None =>
      let '(c, e) := compiler_New (SolcPath s) in
      ((c, e), mk (shutdownChan s) (chans s) (SolcPath s) c (calls s))
  | Some c => ((Some c, None), s)
  end.

Definition SetSolc (solcPath : string) (s : t)
  : (option Solidity * option error) * t :=
  Solc (mk (shutdownChan s) (chans s) solcPath None (calls s)).

End Service.

(** *** addMipmapBloomBins *)

Definition mipmapVersion : Z := 2.

Inductive MipmapError : Type :=
| Corrupted (i : Z)         (* "chain db corrupted. Could not find block %d." *)
| Failed (e : error).       (* an error of rlp or of the database *)

Inductive MipmapLine : Type :=
| Upgrading                 (* "upgrading db log bloom bins" *)
| Completed.                (* "upgrade completed in", time.Since(tstart) *)

(** [common.Hash{}] *)
Definition zero_hash : list byte := repeat x00 32.

(** The database and the functions of core and rlp that work on it are taken
    as given.  [latest] is [core.GetBlock(db, core.GetHeadBlockHash(db))]:
    the number of the head block, or nothing for a nil block; [db_Get] gives
    the data of [db.Get], nil when there is none. *)
Record ChainDb (DB Receipts : Type) : Type := mkChainDb {
  db_Get : DB -> string -> list byte;
  db_Put : DB -> string -> list byte -> DB * option error;
  rlp_DecodeUint : list byte -> option Z;
  rlp_EncodeUint : Z -> list byte * option error;
  latest : DB -> option Z;
  GetCanonicalHash : DB -> Z -> list byte;
  GetBlockReceipts : DB -> list byte -> Receipts;
  WriteMipmapBloom : DB -> Z -> Receipts -> DB * option error
}.

Inductive MipmapResult (DB : Type) : Type :=
| Returns (db : DB) (err : option MipmapError) (log : list MipmapLine)
| Wraps (db : DB) (log : list MipmapLine).
    (* the head block has number 2^64 - 1: the loop counter has gone round
       to 0 and the loop goes on *)

Section Mipmap.

Variables DB Receipts : Type.
Variable core : ChainDb DB Receipts.

(** The deferred function, entered with [err == nil]. *)
Definition record_version (db : DB) : DB * option MipmapError :=
  let '(val, e) := rlp_EncodeUint core mipmapVersion in
  match e with
  | Some x => (db, Some (Failed x))
  | None =>
      let '(db', e') := db_Put core db "setting-mipmap-version" val in
      (db', option_map Failed e')
  end.

(** [todo] turns of the loop, the next for block [i]. *)
Fixpoint bloom_loop (todo : nat) (i : Z) (db : DB) : DB * option MipmapError :=
  match todo with
  | O => (db, None)
  | S k =>
      let hash := GetCanonicalHash core db i in
      if Bytes.same hash zero_hash then (db, Some (Corrupted i))
      else
        let '(db', e) :=
          WriteMipmapBloom core db i (GetBlockReceipts core db hash) in
        match e with
        | Some x => (db', Some (Failed x))
        | None => bloom_loop k (i + 1) db'
        end
  end.

Definition version_is_current (db : DB) : bool :=
  let data := db_Get core db "setting-mipmap-version" in
  (0 <? length data)%nat &&
  match rlp_DecodeUint core data with
  | Some version => version =? mipmapVersion
  | None => false
  end.

Definition addMipmapBloomBins (db : DB) : MipmapResult DB :=
  if version_is_current db then Returns db None []
  else
    match latest core db with
    | None =>
        let '(db', e) := record_version db in Returns db' e []
    | Some n =>
        let '(db1, e) := bloom_loop (Z.to_nat (n + 1)) 0 db in
        match e with
        | Some x => Returns db1 (Some x) [Upgrading]
        | None =>
            if n =? 2 ^ 64 - 1 then Wraps db1 [Upgrading]
            else
              let '(db2, e') := record_version db1 in
              Returns db2 e' [Upgrading; Completed]
        end
    end.

(** The database after the first [k] turns from block [i], and whether they
    all found their block and wrote its bloom. *)
Fixpoint blooms_from (i : Z) (k : nat) (db : DB) : DB :=
  match k with
  | O => db
  | S j =>
      blooms_from (i + 1) j
        (fst (WriteMipmapBloom core db i
                (GetBlockReceipts core db (GetCanonicalHash core db i))))
  end.

Fixpoint turns_ok (i : Z) (k : nat) (db : DB) : bool :=
  match k with
  | O => true
  | S j =>
      negb (Bytes.same (GetCanonicalHash core db i) zero_hash) &&
      match snd (WriteMipmapBloom core db i
                   (GetBlockReceipts core db (GetCanonicalHash core db i))) with
      | Some _ => false
      | None =>
          turns_ok (i + 1) j
            (fst (WriteMipmapBloom core db i
                    (GetBlockReceipts core db (GetCanonicalHash core db i))))
      end
  end.

End Mipmap.

End Ethereum.

(** ** A database to run addMipmapBloomBins on *)

Module MipmapScenario.

(** The number of the head block if there is one, the numbers without a
    canonical hash, the numbers whose bloom has been written, and what is
    stored under "setting-mipmap-version". *)
Record db : Type := mkdb {
  head_number : option Z;
  missing : list Z;
  written : list Z;
  version : list byte
}.

Definition Get (d : db) (key : string) : list byte := version d.

Definition Put (d : db) (key : string) (val : list byte) : db * option error :=
  (mkdb (head_number d) (missing d) (written d) val, None).

Definition DecodeUint (data : list byte) : option Z :=
  match data with
  | [b] => Some (Z.of_N (Byte.to_N b))
  | _ => None
  end.

Definition EncodeUint (v : Z) : list byte * option error :=
  match Byte.of_N (Z.to_N v) with
  | Some b => ([b], None)
  | None => ([], Some "too large"%string)
  end.

Definition CanonicalHash (d : db) (i : Z) : list byte :=
  if existsb (Z.eqb i) (missing d) then Ethereum.zero_hash
  else x01 :: repeat x00 31.

Definition BlockReceipts (d : db) (hash : list byte) : unit := tt.

Definition WriteBloom (d : db) (i : Z) (r : unit) : db * option error :=
  (mkdb (head_number d) (missing d) (written d ++ [i]) (version d), None).

Definition core : Ethereum.ChainDb db unit :=
  Ethereum.mkChainDb Get Put DecodeUint EncodeUint head_number CanonicalHash
                     BlockReceipts WriteBloom.

(** Head block 3, block 2 without canonical hash, no version stored. *)
Definition gap_at_2 : db := mkdb (Some 3) [2] [] [].

(** Head block 3, every block there, no version stored. *)
Definition whole : db := mkdb (Some 3) [] [] [].


(** A seed hash of 32 bytes for every block number. *)
Definition seed (n : Z) : list byte * option error :=
  (xde :: xad :: xbe :: xef :: repeat x00 28, None).

End MipmapScenario.

(** * Facts *)

(** ** bytes.Compare decides equality *)

Lemma to_N_inj (x y : byte) : Byte.to_N x = Byte.to_N y -> x = y.
Proof.
  intro H.
  assert (E : Some x = Some y)
    by (rewrite <- (Byte.of_to_N x), <- (Byte.of_to_N y), H; reflexivity).
  now inversion E.
Qed.

Lemma Compare_refl (a : list byte) : Bytes.Compare a a = 0.
Proof.
  induction a as [|x a IH]; simpl; [reflexivity|].
  now rewrite N.compare_refl.
Qed.

Lemma Compare_eq (a b : list byte) : Bytes.Compare a b = 0 <-> a = b.
Proof.
  split; [|intros ->; apply Compare_refl].
  revert b; induction a as [|x a IH]; intros [|y b]; simpl;
    try discriminate; auto.
  destruct (N.compare (Byte.to_N x) (Byte.to_N y)) eqn:E; try discriminate.
  intro H. apply N.compare_eq in E. apply to_N_inj in E. subst.
  f_equal. now apply IH.
Qed.

Lemma same_true (a b : list byte) : Bytes.same a b = true <-> a = b.
Proof. unfold Bytes.same. rewrite Z.eqb_eq. apply Compare_eq. Qed.

Lemma same_false (a b : list byte) : Bytes.same a b = false <-> a <> b.
Proof.
  rewrite <- same_true. destruct (Bytes.same a b); split; congruence.
Qed.

(** ** sort.Sort under TxByNonce: a permutation, ascending in the nonce *)

Section SortFacts.

Variable T : Type.
Variable Less : T -> T -> bool.




End SortFacts.







(** ** The listener's handlers *)

Ltac open_world :=
  cbv [emit with_out with_chain with_pool with_subs with_listeners with_rounds
       with_blocks with_chans on_miner Miner_txs Miner_uncles Miner_block
       Miner_events Miner_powQuitChan Miner_powDone Miner_turbo] in *;
  simpl in *.

Section HandlerFacts.

Variables Chain Pool : Type.
Variable eth : EthManager Chain Pool.

(** What startMining leaves alone, and the one goroutine it adds. *)
Lemma startMining_frame (w : World Chain Pool) :
  txs (miner (startMining w)) = txs (miner w) /\
  uncles (miner (startMining w)) = uncles (miner w) /\
  block (miner (startMining w)) = block (miner w) /\
  blocks (startMining w) = blocks w /\
  chain (startMining w) = chain w /\
  pool (startMining w) = pool w /\
  out (startMining w) = out w /\
  rounds (startMining w) = rounds w ++ [Spawned].
Proof.
  unfold startMining, Chan.make.
  destruct (powDone (miner w)); open_world; repeat split; reflexivity.
Qed.

(** stopMining, when it returns, has touched nothing but the channel store
    and the terminal. *)
Lemma stopMining_frame (w w' : World Chain Pool) :
  stopMining w = Done w' ->
  miner w' = miner w /\ rounds w' = rounds w /\ blocks w' = blocks w /\
  chain w' = chain w /\ pool w' = pool w.
Proof.
  unfold stopMining, stopMining_recv. open_world.
  destruct (Chan.recv (chans w) (powQuitChan (miner w))); try discriminate.
  - intro H; inversion H; subst; simpl; repeat split; reflexivity.
  - destruct (Chan.close h' (powQuitChan (miner w))); try discriminate.
    intro H; inversion H; subst; simpl; repeat split; reflexivity.
Qed.

(** stopMining returns only on a quit channel that is closed or has a sender
    parked on it. *)
Lemma stopMining_parks (w : World Chain Pool) (q : nat) :
  powQuitChan (miner w) = Some q ->
  nth_error (chans w) q = Some (Chan.Open 0) ->
  stopMining w = Parks.
Proof.
  intros Hq Hc. unfold stopMining, stopMining_recv. open_world.
  unfold Chan.recv. now rewrite Hq, Hc.
Qed.

Lemma scan_frame (tx : Transaction.t) (l : list Transaction.t) (w : World Chain Pool) :
  fst (scan tx l w) =
    existsb (fun ctx => Bytes.same (Transaction.Hash ctx) (Transaction.Hash tx)) l /\
  txs (miner (snd (scan tx l w))) = txs (miner w) /\
  uncles (miner (snd (scan tx l w))) = uncles (miner w) /\
  block (miner (snd (scan tx l w))) = block (miner w) /\
  blocks (snd (scan tx l w)) = blocks w /\
  pool (snd (scan tx l w)) = pool w /\
  rounds (snd (scan tx l w)) = rounds w ++ repeat Spawned (restarts tx l).
Proof.
  revert w; induction l as [|ctx r IH]; intro w; simpl.
  - rewrite app_nil_r. repeat split; reflexivity.
  - destruct (Bytes.same (Transaction.Hash ctx) (Transaction.Hash tx)); simpl.
    + rewrite app_nil_r. repeat split; reflexivity.
    + destruct (IH (startMining w)) as (F & T & U & B & Bs & P & R).
      destruct (startMining_frame w) as (T' & U' & B' & Bs' & _ & P' & _ & R').
      rewrite F, T, U, B, Bs, P, R, T', U', B', Bs', P', R', <- app_assoc.
      repeat split; reflexivity.
Qed.

(** The working transaction set after a pending-transaction event. *)
Lemma onTxPre_txs (tx : Transaction.t) (w w' : World Chain Pool) :
  onTxPre tx w = Done w' ->
  txs (miner w') =
    if existsb (fun ctx => Bytes.same (Transaction.Hash ctx) (Transaction.Hash tx))
               (txs (miner w))
    then txs (miner w)
    else txs (miner w) ++ [tx].
Proof.
  unfold onTxPre.
  destruct (scan_frame tx (txs (miner w)) w) as (F & T & _ & B & _).
  destruct (scan tx (txs (miner w)) w) as [found w1]; simpl in *.
  rewrite <- F. destruct found.
  - intro H; inversion H; subst. exact T.
  - destruct (block (miner w1)); try discriminate.
    destruct (nth_error (blocks w1) n); intro H; inversion H; subst;
      open_world; now rewrite T.
Qed.

(** The rounds after a pending-transaction event: the old ones, untouched,
    and one new goroutine per call of startMining in the scan loop. *)
Lemma onTxPre_rounds (tx : Transaction.t) (w w' : World Chain Pool) :
  onTxPre tx w = Done w' ->
  rounds w' = rounds w ++ repeat Spawned (restarts tx (txs (miner w))).
Proof.
  unfold onTxPre.
  destruct (scan_frame tx (txs (miner w)) w) as (_ & _ & _ & _ & _ & _ & R).
  destruct (scan tx (txs (miner w)) w) as [found w1]; simpl in *.
  destruct found.
  - intro H; inversion H; subst. exact R.
  - destruct (block (miner w1)); try discriminate.
    destruct (nth_error (blocks w1) n); intro H; inversion H; subst;
      open_world; exact R.
Qed.

(** No handler waits for a round: whatever rounds there were are in the
    state they were in when the handler is through. *)
Lemma handleEvent_joins_nothing (e : Event) (w w' : World Chain Pool) :
  handleEvent eth e w = Done w' ->
  exists fresh, rounds w' = rounds w ++ fresh.
Proof.
  unfold handleEvent, bind.
  destruct (stopMining w) as [w1| |] eqn:S; try discriminate.
  destruct (stopMining_frame _ S) as (_ & R & _).
  destruct e as [b|tx]; simpl.
  - intro H; inversion H; subst. unfold onNewBlock.
    match goal with |- context [startMining ?x] =>
      destruct (startMining_frame x) as (_ & _ & _ & _ & _ & _ & _ & R') end.
    rewrite R'. exists [Spawned]. f_equal.
    destruct (Bytes.same _ _); [open_world; exact R|].
    destruct (Bytes.same _ _); open_world; exact R.
  - intro H. apply onTxPre_rounds in H. rewrite H, R. eauto.
Qed.

End HandlerFacts.

(** ** mineNewBlock *)

Lemma nth_error_snoc (A : Type) (l : list A) (a : A) :
  nth_error (l ++ [a]) (length l) = Some a.
Proof. induction l; simpl; auto. Qed.

Lemma list_set_snoc (A : Type) (l : list A) (a b : A) :
  list_set (l ++ [a]) (length l) b = l ++ [b].
Proof. induction l; simpl; [reflexivity|]. now f_equal. Qed.

Section RoundFacts.

Variables Chain Pool : Type.
Variable eth : EthManager Chain Pool.

(** A call through [self.block] when it points to the block allocated last. *)
Lemma on_block_last (f : Block.t -> Block.t) (m : Miner) ch
  (l : list Block.t) (b : Block.t) rs ls ss (p : Pool) (c : Chain) o :
  block m = Some (length l) ->
  on_block f (mkWorld m ch (l ++ [b]) rs ls ss p c o) =
  mkWorld m ch (l ++ [f b]) rs ls ss p c o.
Proof.
  intro H. unfold on_block. simpl. rewrite H, nth_error_snoc.
  unfold with_blocks. simpl. now rewrite list_set_snoc.
Qed.

Lemma prepare_eq (w : World Chain Pool) :
  prepare eth w =
  mkWorld
    (mkMiner (coinbase (miner w))
             (Sort.Sort TxByNonce_Less (txs (miner w)))
             (uncles (miner w)) (Some (length (blocks w))) (events (miner w))
             (powQuitChan (miner w)) (powDone (miner w)) (turbo (miner w)))
    (chans w) (blocks w ++ [drafted eth w]) (rounds w) (listeners w) (subs w)
    (pool w) (chain w) (out w).
Proof.
  destruct w as [[cb t u bp ev q d tb] ch bl rs ls ss p c o].
  unfold prepare, drafted. open_world.
  destruct (0 <? length u)%nat.
  - rewrite on_block_last by reflexivity. open_world.
    rewrite on_block_last by reflexivity. reflexivity.
  - open_world. rewrite on_block_last by reflexivity. reflexivity.
Qed.

Lemma settle_eq (r : Processed) (m : Miner) ch (l : list Block.t)
  (b : Block.t) rs ls ss (p : Pool) (c : Chain) o :
  block m = Some (length l) ->
  settle eth r (mkWorld m ch (l ++ [b]) rs ls ss p c o) =
  mkWorld (Miner_txs (handled r ++ unhandledTxs r) m) ch
          (l ++ [sealed r (txs m) b]) rs ls ss
          (RemoveSet eth (erroneous r) p) c
          (o ++ match err r with
                | Some e => [Log (Debugln e)]
                | None => []
                end
             ++ [Log (Infof_mining (length (handled r ++ unhandledTxs r)))]).
Proof.
  intro H. unfold settle, sealed.
  rewrite on_block_last by exact H.
  destruct (err r); open_world;
    repeat (rewrite on_block_last by exact H; open_world);
    rewrite <- ?app_assoc; reflexivity.
Qed.

(** The whole of mineNewBlock up to the call of Search, as one equation. *)
Lemma mineNewBlock_search_eq (i : nat) (w : World Chain Pool) :
  mineNewBlock_search eth i w =
  let r := reported eth w in
  Done
    (mkWorld
       (mkMiner (coinbase (miner w)) (handled r ++ unhandledTxs r)
                (uncles (miner w)) (Some (length (blocks w)))
                (events (miner w)) (powQuitChan (miner w))
                (powDone (miner w)) (turbo (miner w)))
       (chans w)
       (blocks w ++
          [sealed r (Sort.Sort TxByNonce_Less (txs (miner w))) (drafted eth w)])
       (list_set (rounds w) i
                 (Searching (length (blocks w)) (powQuitChan (miner w))))
       (listeners w) (subs w)
       (RemoveSet eth (erroneous r) (pool w)) (chain w)
       (out w ++ match err r with
                 | Some e => [Log (Debugln e)]
                 | None => []
                 end
          ++ [Log (Infof_mining (length (handled r ++ unhandledTxs r)))])).
Proof.
  unfold mineNewBlock_search, report, the_block. rewrite prepare_eq.
  cbn [miner block blocks chain txs]. rewrite nth_error_snoc.
  rewrite settle_eq by reflexivity. reflexivity.
Qed.

End RoundFacts.

(** ** The new-block handler *)

Section NewBlockFacts.

Variables Chain Pool : Type.
Variable eth : EthManager Chain Pool.


(** The working sets after the new-block case, read off the code. *)
Lemma onNewBlock_sets (b : Block.t) (w : World Chain Pool) :
  txs (miner (onNewBlock eth b w)) =
    (if Bytes.same (Block.Hash (CurrentBlock eth (chain w))) (Block.Hash b)
     then filter (fun tx => negb (in_block b tx)) (txs (miner w))
     else txs (miner w)) /\
  uncles (miner (onNewBlock eth b w)) =
    (if Bytes.same (Block.Hash (CurrentBlock eth (chain w))) (Block.Hash b)
     then uncles (miner w)
     else if Bytes.same (Block.PrevHash b)
                        (Block.PrevHash (CurrentBlock eth (chain w)))
          then uncles (miner w) ++ [b]
          else uncles (miner w)).
Proof.
  unfold onNewBlock.
  match goal with |- context [startMining ?x] =>
    destruct (startMining_frame x) as (T & U & _) end.
  rewrite T, U.
  destruct (Bytes.same (Block.Hash (CurrentBlock eth (chain w))) (Block.Hash b)).
  - open_world. split; reflexivity.
  - destruct (Bytes.same (Block.PrevHash b)
                         (Block.PrevHash (CurrentBlock eth (chain w))));
      open_world; split; reflexivity.
Qed.



End NewBlockFacts.

(** ** No channel of the miner is ever closed *)

Section ChannelFacts.

Variables Chain Pool : Type.
Variable eth : EthManager Chain Pool.

Lemma recv_all_open (h : Chan.store) (c : Chan.ref) :
  Forall (fun x => x = Chan.Open 0) h -> Chan.recv h c = Chan.Parked.
Proof.
  intro F. destruct c as [i|]; simpl; [|reflexivity].
  destruct (nth_error h i) as [x|] eqn:E; [|reflexivity].
  apply nth_error_In in E. rewrite Forall_forall in F.
  now rewrite (F x E).
Qed.

Lemma stopMining_recv_all_open (w : World Chain Pool) :
  all_open w -> stopMining_recv w = Parks.
Proof.
  intro F. unfold stopMining_recv. now rewrite recv_all_open.
Qed.

Lemma startMining_all_open (w : World Chain Pool) :
  all_open w -> all_open (startMining w).
Proof.
  unfold all_open, startMining, Chan.make. intro F.
  destruct (powDone (miner w)); open_world;
    repeat (apply Forall_app; split); auto.
Qed.

Lemma on_block_chans (f : Block.t -> Block.t) (w : World Chain Pool) :
  chans (on_block f w) = chans w.
Proof.
  unfold on_block. destruct (block (miner w)); [|reflexivity].
  now destruct (nth_error (blocks w) n).
Qed.

Lemma mineNewBlock_return_all_open (i : nat) (nonce : option (list byte))
  (w w' : World Chain Pool) :
  mineNewBlock_return eth i nonce w = Done w' -> all_open w -> all_open w'.
Proof.
  unfold mineNewBlock_return. destruct nonce as [n|].
  - destruct (the_block (on_block (Block.SetNonce n) w)); try discriminate.
    destruct (Process eth _ _) as [e c]. intros H F.
    inversion H; subst; clear H.
    unfold all_open. cbn [chans with_rounds].
    apply startMining_all_open. unfold all_open.
    destruct e; open_world; rewrite on_block_chans; exact F.
  - intros H F. inversion H; subst. exact F.
Qed.

(** Every step of the program keeps all channels open. *)
Lemma exec_all_open (a : Action Chain Pool) (w w' : World Chain Pool) :
  exec eth a w = Some w' -> all_open w -> all_open w'.
Proof.
  intros H F. destruct a as [| | |l|l e|l|l|r|r nonce|c|p]; simpl in H.
  - inversion H; subst. unfold Start.
    destruct (Flush eth (pool w)). exact F.
  - unfold Stop in H. open_world.
    destruct (events (miner w)); inversion H; subst. exact F.
  - inversion H; subst. exact F.
  - destruct (nth_error (listeners w) l) as [[| |]|]; try discriminate.
    inversion H; subst. apply (startMining_all_open F).
  - destruct (nth_error (listeners w) l) as [[| |]|]; try discriminate.
    destruct (delivering w); try discriminate.
    unfold handleEvent, stopMining in H.
    rewrite stopMining_recv_all_open in H by exact F.
    simpl in H. inversion H; subst. exact F.
  - destruct (nth_error (listeners w) l) as [[| |]|]; try discriminate.
    rewrite stopMining_recv_all_open in H by exact F. discriminate.
  - destruct (nth_error (listeners w) l) as [[| |]|]; try discriminate.
    rewrite recv_all_open in H by exact F. discriminate.
  - destruct (nth_error (rounds w) r) as [[| |]|]; try discriminate.
    rewrite mineNewBlock_search_eq in H. inversion H; subst. exact F.
  - destruct (nth_error (rounds w) r) as [[| |]|]; try discriminate.
    destruct (mineNewBlock_return eth r nonce w) eqn:R; try discriminate.
    inversion H; subst. eapply mineNewBlock_return_all_open; eauto.
  - inversion H; subst. exact F.
  - inversion H; subst. exact F.
Qed.

Lemma run_all_open (l : list (Action Chain Pool)) (w w' : World Chain Pool) :
  run eth l w = Some w' -> all_open w -> all_open w'.
Proof.
  revert w; induction l as [|a l IH]; intros w H F; simpl in H.
  - now inversion H; subst.
  - destruct (exec eth a w) as [w1|] eqn:E; try discriminate.
    eapply IH; [exact H|]. eapply exec_all_open; eauto.
Qed.

Lemma reachable_all_open (w : World Chain Pool) :
  reachable eth w -> all_open w.
Proof.
  intros (cb & c & p & l & H). eapply run_all_open; [exact H|]. constructor.
Qed.

(** Whatever has happened since NewDefaultMiner, an event that reaches the
    listener gets no further than the receive in stopMining: the quit channel
    is never closed, so no round is ever told to stop. *)
Lemma listener_parks_in_stopMining (e : Event) (w : World Chain Pool) :
  reachable eth w -> handleEvent eth e w = Parks.
Proof.
  intro R. apply reachable_all_open in R.
  unfold handleEvent, stopMining.
  now rewrite stopMining_recv_all_open.
Qed.

End ChannelFacts.

(** * The claims *)

Import Scenario.

(** Runs the model on a closed input. *)
Ltac run_it := cbv; reflexivity.

(** C1, refuted on the code: the number of rounds inside pow.Search is not
    bounded by one.  A miner that is started twice runs two searches side by
    side, since Start enters a listener unconditionally and startMining
    starts a mineNewBlock goroutine without looking at the ones there are;
    and the scan loop of the pending-transaction case, run on a closed quit
    channel with two other transactions in the set, starts two rounds which
    then search together. *)
Theorem second_search_beside_the_first :
  (exists w, reachable sim w /\ searching w = 2%nat) /\
  (exists w,
      run sim [Deliver _ _ 0 (TxPreEvent txC); RoundBegins _ _ 1;
               RoundBegins _ _ 2]
          (halted [txA; txB] [] [Returned]) = Some w /\
      searching w = 2%nat).
Proof.
  split.
  - eexists. split.
    + exists me, genesis, [txA; txB], started_twice. run_it.
    + reflexivity.
  - eexists. split; [run_it | reflexivity].
Qed.

(** C2, refuted on the code: the handler does not cancel and join before it
    goes on.  With the first round inside Search the receive in stopMining
    parks the listener: the quit channel stays open, the round stays inside
    Search, nothing is acknowledged.  When the quit channel is closed
    already, stopMining returns at once and the handler rewrites the
    transaction set and starts a new round while the earlier round is still
    inside Search. *)
Theorem handler_neither_cancels_nor_joins :
  (exists w0 w1,
      run sim first_round (fresh [txA; txB]) = Some w0 /\
      handleEvent sim (NewBlockEvent head) w0 = Parks /\
      exec sim (Deliver _ _ 0 (NewBlockEvent head)) w0 = Some w1 /\
      listeners w1 = [InStopMining (NewBlockEvent head)] /\
      rounds w1 = [Searching 1 (Some 1%nat)] /\
      chans w1 = [Chan.Open 0; Chan.Open 0] /\
      miner w1 = miner w0) /\
  (exists w',
      handleEvent sim (NewBlockEvent head)
                  (halted [txA; txB] [] [Searching 0 (Some 0%nat)]) = Done w' /\
      txs (miner w') = [txB] /\
      rounds w' = [Searching 0 (Some 0%nat); Spawned]).
Proof.
  split.
  - do 2 eexists. split; [run_it|]. split; [run_it|]. split; [run_it|].
    (repeat split; reflexivity).
  - eexists. split; [run_it|]. (split; reflexivity).
Qed.







(** C6, refuted on the code: a template is written to while a round
    searches on it.  Every round does build its template anew (see
    [mineNewBlock_search_eq]), but the block is reached through the shared
    field self.block.  With two rounds inside Search, the first to find a
    nonce stores it in the block the other is searching on; and the
    pending-transaction handler calls Undo on the block of a round that has
    not left Search. *)
Theorem template_is_written_during_search :
  (exists w0 w1,
      run sim started_twice (fresh [txA; txB]) = Some w0 /\
      exec sim (SearchReturns _ _ 0 (Some [x07])) w0 = Some w1 /\
      nth_error (rounds w0) 1 = Some (Searching 3 (Some 2%nat)) /\
      nth_error (rounds w1) 1 = Some (Searching 3 (Some 2%nat)) /\
      option_map Block.Nonce (nth_error (blocks w0) 3) = Some None /\
      option_map Block.Nonce (nth_error (blocks w1) 3) = Some (Some [x07])) /\
  (exists w',
      handleEvent sim (TxPreEvent txC)
                  (halted [txA] [] [Searching 0 (Some 0%nat)]) = Done w' /\
      nth_error (rounds w') 0 = Some (Searching 0 (Some 0%nat)) /\
      option_map Block.State (nth_error (blocks w') 0) = Some [Block.Reset]).
Proof.
  split.
  - do 2 eexists. split; [run_it|]. split; [run_it|].
    repeat split; reflexivity.
  - eexists. split; [run_it|]. split; reflexivity.
Qed.








(** C9: in every round an error of ProcessTransactions goes to the log and
    nowhere else.  Whatever is reported, the round removes the erroneous
    transactions from the pool with RemoveSet, sets the miner's transactions
    to the handled ones followed by the unhandled ones, and goes on into
    Search; apart from the output it ends in the world it would end in with
    a processor that reports no error. *)
Theorem processing_error_is_logged_only
  (Chain Pool : Type) (eth : EthManager Chain Pool)
  (i : nat) (w : World Chain Pool) :
  exists w' quiet_w',
    mineNewBlock_search eth i w = Done w' /\
    pool w' = RemoveSet eth (erroneous (reported eth w)) (pool w) /\
    txs (miner w') =
      handled (reported eth w) ++ unhandledTxs (reported eth w) /\
    rounds w' =
      list_set (rounds w) i
               (Searching (length (blocks w)) (powQuitChan (miner w))) /\
    out w' =
      out w
        ++ match err (reported eth w) with
           | Some e => [Log (Debugln e)]
           | None => []
           end
        ++ [Log (Infof_mining (length (txs (miner w'))))] /\
    mineNewBlock_search (silenced eth) i w = Done quiet_w' /\
    with_out [] w' = with_out [] quiet_w'.
Proof.
  rewrite !mineNewBlock_search_eq. cbv zeta.
  do 2 eexists. split; [reflexivity|]. simpl.
  repeat split; reflexivity.
Qed.

(** C10: every call of mineNewBlock has removed the erroneous transactions
    from the pool and overwritten the miner's transactions with the handled
    and unhandled ones by the time Search begins, and a Search that returns
    no nonce undoes none of it: the round just ends.  So a round that is
    cancelled can leave both the pool and the miner's transactions changed,
    as it does on the pool [txBad; txLate; txA]. *)
Theorem cancelled_round_keeps_its_writes :
  (forall (Chain Pool : Type) (eth : EthManager Chain Pool)
          (i : nat) (w : World Chain Pool),
      exists w1 w2,
        mineNewBlock_search eth i w = Done w1 /\
        pool w1 = RemoveSet eth (erroneous (reported eth w)) (pool w) /\
        txs (miner w1) =
          handled (reported eth w) ++ unhandledTxs (reported eth w) /\
        mineNewBlock_return eth i None w1 = Done w2 /\
        pool w2 = pool w1 /\
        txs (miner w2) = txs (miner w1) /\
        rounds w2 = list_set (rounds w1) i Returned) /\
  (exists w2,
      run sim [RoundBegins _ _ 0; SearchReturns _ _ 0 None]
          (halted [txBad; txLate; txA] [] [Spawned]) = Some w2 /\
      rounds w2 = [Returned] /\
      pool w2 = [txLate; txA] /\
      txs (miner w2) = [txA; txLate]).
Proof.
  split.
  - intros Chain Pool eth i w.
    rewrite mineNewBlock_search_eq. cbv zeta.
    do 2 eexists. split; [reflexivity|]. simpl.
    repeat split; reflexivity.
  - eexists. split; [run_it|]. repeat split; reflexivity.
Qed.

(** * Further properties of the miner *)




Section GoroutineFacts.

Variables Chain Pool : Type.
Variable eth : EthManager Chain Pool.


Lemma on_block_frame (f : Block.t -> Block.t) (w : World Chain Pool) :
  miner (on_block f w) = miner w /\ rounds (on_block f w) = rounds w /\
  listeners (on_block f w) = listeners w /\ out (on_block f w) = out w /\
  pool (on_block f w) = pool w /\ chain (on_block f w) = chain w /\
  subs (on_block f w) = subs w.
Proof.
  unfold on_block. destruct (block (miner w)); [|repeat split; reflexivity].
  destruct (nth_error (blocks w) n); repeat split; reflexivity.
Qed.






End GoroutineFacts.



Section ReachableFacts.

Variables Chain Pool : Type.
Variable eth : EthManager Chain Pool.

Lemma mineNewBlock_return_uncles (i : nat) (nonce : option (list byte))
  (w w' : World Chain Pool) :
  mineNewBlock_return eth i nonce w = Done w' ->
  uncles (miner w') = uncles (miner w).
Proof.
  unfold mineNewBlock_return. destruct nonce as [n|].
  - destruct (on_block_frame (Block.SetNonce n) w) as (M & _).
    remember (on_block (Block.SetNonce n) w) as w1 eqn:E1. clear E1.
    destruct (the_block w1) as [b|]; [|discriminate].
    destruct (Process eth (chain w1) b) as [e c]. cbv zeta.
    match goal with |- context [startMining ?x] => remember x as w3 eqn:E3 end.
    destruct (startMining_frame w3) as (_ & U & _).
    remember (startMining w3) as w5 eqn:E5. clear E5.
    intros [= <-]. unfold with_rounds. cbn [miner].
    rewrite U, <- M. clear U M w5.
    subst w3. destruct e; reflexivity.
  - intros [= <-]. reflexivity.
Qed.

(** No step from a world with all channels open changes the uncles. *)
Lemma exec_uncles (a : Action Chain Pool) (w w' : World Chain Pool) :
  exec eth a w = Some w' -> all_open w ->
  uncles (miner w') = uncles (miner w).
Proof.
  intros H F.
  destruct a as [| | |l|l e|l|l|r|r nonce|c|p]; simpl in H.
  - inversion H; subst. unfold Start.
    destruct (Flush eth (pool w)). reflexivity.
  - unfold Stop in H. open_world.
    destruct (events (miner w)); inversion H; subst. reflexivity.
  - inversion H; subst. reflexivity.
  - destruct (nth_error (listeners w) l) as [[| |]|]; try discriminate.
    inversion H; subst. cbn [miner with_listeners].
    now destruct (startMining_frame w) as (_ & U & _).
  - destruct (nth_error (listeners w) l) as [[| |]|]; try discriminate.
    destruct (delivering w); try discriminate.
    unfold handleEvent, stopMining in H.
    rewrite stopMining_recv_all_open in H by exact F.
    simpl in H. inversion H; subst. reflexivity.
  - destruct (nth_error (listeners w) l) as [[| |]|]; try discriminate.
    rewrite stopMining_recv_all_open in H by exact F. discriminate.
  - destruct (nth_error (listeners w) l) as [[| |]|]; try discriminate.
    rewrite recv_all_open in H by exact F. discriminate.
  - destruct (nth_error (rounds w) r) as [[| |]|]; try discriminate.
    rewrite mineNewBlock_search_eq in H. inversion H; subst. reflexivity.
  - destruct (nth_error (rounds w) r) as [[| |]|]; try discriminate.
    destruct (mineNewBlock_return eth r nonce w) eqn:R; try discriminate.
    inversion H; subst. eapply mineNewBlock_return_uncles; eauto.
  - inversion H; subst. reflexivity.
  - inversion H; subst. reflexivity.
Qed.

Lemma run_uncles (l : list (Action Chain Pool)) (w w' : World Chain Pool) :
  run eth l w = Some w' -> all_open w ->
  uncles (miner w') = uncles (miner w).
Proof.
  revert w; induction l as [|a l IH]; intros w H F; simpl in H.
  - now inversion H; subst.
  - destruct (exec eth a w) as [w1|] eqn:E; try discriminate.
    rewrite (IH _ H (exec_all_open _ _ E F)).
    eapply exec_uncles; eauto.
Qed.

End ReachableFacts.

(** X2: whatever has happened since NewDefaultMiner, no channel of the miner
    is closed; so an event that reaches the listener gets no further than the
    receive in stopMining, a listener parked there is never woken, the
    powDone case of the select is never ready, and the uncles are still
    empty. *)
Theorem no_event_gets_past_stopMining
  (Chain Pool : Type) (eth : EthManager Chain Pool) (w : World Chain Pool) :
  reachable eth w ->
  all_open w /\
  (forall e, handleEvent eth e w = Parks) /\
  (forall l, exec eth (Resume _ _ l) w = None) /\
  (forall l, exec eth (PowDoneReady _ _ l) w = None) /\
  uncles (miner w) = [].
Proof.
  intro R. pose proof (reachable_all_open R) as F.
  split; [exact F|]. split; [intro e; now apply listener_parks_in_stopMining|].
  split; [|split].
  - intro l. simpl.
    destruct (nth_error (listeners w) l) as [[| |]|]; try reflexivity.
    now rewrite stopMining_recv_all_open.
  - intro l. simpl.
    destruct (nth_error (listeners w) l) as [[| |]|]; try reflexivity.
    now rewrite recv_all_open.
  - destruct R as (cb & c & p & l & H).
    rewrite (run_uncles _ _ H); [reflexivity|constructor].
Qed.

Lemma no_event_gets_past_stopMining_witness :
  reachable sim running /\
  handleEvent sim (TxPreEvent txC) running = Parks /\
  uncles (miner running) = [].
Proof.
  assert (R : reachable sim running).
  { exists me, genesis, [txA; txB], first_round. run_it. }
  destruct (@no_event_gets_past_stopMining _ _ sim running R)
    as (_ & P & _ & _ & U).
  split; [exact R|]. split; [apply P | exact U].
Defined.

Section WorkingSetFacts.

Variables Chain Pool : Type.
Variable eth : EthManager Chain Pool.

Lemma found_iff_hash_known (tx : Transaction.t) (l : list Transaction.t) :
  existsb (fun ctx => Bytes.same (Transaction.Hash ctx) (Transaction.Hash tx)) l
    = true <->
  In (Transaction.Hash tx) (hashes l).
Proof.
  unfold hashes. rewrite existsb_exists, in_map_iff. split.
  - intros (x & Hx & E). apply same_true in E. eauto.
  - intros (x & E & Hx). exists x. split; [exact Hx|]. now apply same_true.
Qed.

Lemma restarts_unknown (tx : Transaction.t) (l : list Transaction.t) :
  ~ In (Transaction.Hash tx) (hashes l) -> restarts tx l = length l.
Proof.
  induction l as [|ctx r IH]; simpl; intro N; [reflexivity|].
  destruct (Bytes.same (Transaction.Hash ctx) (Transaction.Hash tx)) eqn:E.
  - apply same_true in E. exfalso. apply N. now left.
  - f_equal. apply IH. intro H. apply N. now right.
Qed.

Lemma restarts_known (tx ctx : Transaction.t) (pre post : list Transaction.t) :
  ~ In (Transaction.Hash tx) (hashes pre) ->
  Transaction.Hash ctx = Transaction.Hash tx ->
  restarts tx (pre ++ ctx :: post) = length pre.
Proof.
  induction pre as [|x pre IH]; simpl; intros N E.
  - apply same_true in E. now rewrite E.
  - destruct (Bytes.same (Transaction.Hash x) (Transaction.Hash tx)) eqn:X.
    + apply same_true in X. exfalso. apply N. now left.
    + f_equal. apply IH; [|exact E]. intro H. apply N. now right.
Qed.

Lemma NoDup_hashes_snoc (tx : Transaction.t) (l : list Transaction.t) :
  NoDup (hashes l) -> ~ In (Transaction.Hash tx) (hashes l) ->
  NoDup (hashes (l ++ [tx])).
Proof.
  unfold hashes. rewrite map_app. simpl. intros D N.
  apply NoDup_app; [exact D | repeat constructor; intros [] |].
  intros h Hh [<-|[]]. exact (N Hh).
Qed.

Lemma NoDup_hashes_filter (f : Transaction.t -> bool)
  (l : list Transaction.t) :
  NoDup (hashes l) -> NoDup (hashes (filter f l)).
Proof.
  unfold hashes. induction l as [|x l IH]; simpl; intro D; [constructor|].
  inversion D as [|? ? N D']; subst.
  destruct (f x); simpl; [|now apply IH].
  constructor; [|now apply IH].
  intro H. apply N. apply in_map_iff in H. destruct H as (y & E & Hy).
  apply filter_In in Hy. apply in_map_iff. exists y. tauto.
Qed.

(** A pending-transaction event that gets through stopMining runs the case
    on a world with the same miner and the same rounds. *)
Lemma handleEvent_TxPre (tx : Transaction.t) (w w' : World Chain Pool) :
  handleEvent eth (TxPreEvent tx) w = Done w' ->
  exists w1, miner w1 = miner w /\ rounds w1 = rounds w /\
             onTxPre tx w1 = Done w'.
Proof.
  unfold handleEvent, bind.
  destruct (stopMining w) as [w1| |] eqn:S; try discriminate.
  destruct (stopMining_frame _ S) as (M & R & _).
  simpl. intro H. exists w1. auto.
Qed.

End WorkingSetFacts.

(** X3: the pending-transaction case keeps the miner's transactions unique by
    hash: a transaction whose hash is in the set leaves the set as it is, any
    other is put at the end, and a set without two equal hashes stays so.
    This holds for the case as it stands in the listener and for every
    handling of the event that gets through stopMining. *)
Theorem pending_transaction_keeps_hashes_unique
  (Chain Pool : Type) (eth : EthManager Chain Pool)
  (tx : Transaction.t) (w w' : World Chain Pool) :
  onTxPre tx w = Done w' \/ handleEvent eth (TxPreEvent tx) w = Done w' ->
  (In (Transaction.Hash tx) (hashes (txs (miner w))) ->
   txs (miner w') = txs (miner w)) /\
  (~ In (Transaction.Hash tx) (hashes (txs (miner w))) ->
   txs (miner w') = txs (miner w) ++ [tx]) /\
  In (Transaction.Hash tx) (hashes (txs (miner w'))) /\
  (NoDup (hashes (txs (miner w))) -> NoDup (hashes (txs (miner w')))).
Proof.
  intro H.
  assert (T : txs (miner w') =
              if existsb (fun ctx => Bytes.same (Transaction.Hash ctx)
                                                (Transaction.Hash tx))
                         (txs (miner w))
              then txs (miner w) else txs (miner w) ++ [tx]).
  { destruct H as [H|H].
    - now apply onTxPre_txs.
    - apply handleEvent_TxPre in H. destruct H as (w1 & M & _ & H).
      apply onTxPre_txs in H. now rewrite M in H. }
  clear H.
  destruct (existsb _ (txs (miner w))) eqn:E.
  - apply found_iff_hash_known in E. rewrite T.
    repeat split; auto. intro N. contradiction.
  - assert (N : ~ In (Transaction.Hash tx) (hashes (txs (miner w)))).
    { intro H. apply found_iff_hash_known in H. congruence. }
    rewrite T. repeat split; auto.
    + intro H. contradiction.
    + unfold hashes. rewrite map_app. apply in_or_app. right. now left.
    + intro D. now apply NoDup_hashes_snoc.
Qed.

Lemma pending_transaction_keeps_hashes_unique_witness :
  handleEvent sim (TxPreEvent txC) before_head
    = Done (landed (handleEvent sim (TxPreEvent txC) before_head)
                   before_head) /\
  txs (miner (landed (handleEvent sim (TxPreEvent txC) before_head)
                     before_head)) = [txA; txB; txC] /\
  NoDup (hashes (txs (miner (landed (handleEvent sim (TxPreEvent txC)
                                                 before_head)
                                    before_head)))).
Proof.
  assert (H : handleEvent sim (TxPreEvent txC) before_head
              = Done (landed (handleEvent sim (TxPreEvent txC) before_head)
                             before_head)) by run_it.
  destruct (@pending_transaction_keeps_hashes_unique _ _ sim txC _ _
              (or_intror H)) as (_ & A & _ & D).
  split; [exact H|]. split.
  - apply A. simpl. intros [E|[E|[]]]; discriminate.
  - apply D. simpl. repeat constructor; simpl; intuition discriminate.
Defined.

(** X4: the pending-transaction case starts one mineNewBlock goroutine for
    every transaction it passes on its way through the set: as many as the
    set holds when the hash is not in it (none for an empty set), and as many
    as stand in front of the first transaction with that hash otherwise
    (none when it is the first).  It never touches the rounds there were. *)
Theorem pending_transaction_starts_a_round_per_passed
  (Chain Pool : Type) (eth : EthManager Chain Pool)
  (tx : Transaction.t) (w w' : World Chain Pool) :
  onTxPre tx w = Done w' \/ handleEvent eth (TxPreEvent tx) w = Done w' ->
  (~ In (Transaction.Hash tx) (hashes (txs (miner w))) ->
   rounds w' = rounds w ++ repeat Spawned (length (txs (miner w)))) /\
  (forall pre ctx post,
      txs (miner w) = pre ++ ctx :: post ->
      ~ In (Transaction.Hash tx) (hashes pre) ->
      Transaction.Hash ctx = Transaction.Hash tx ->
      rounds w' = rounds w ++ repeat Spawned (length pre)).
Proof.
  intro H.
  assert (R : rounds w' =
              rounds w ++ repeat Spawned (restarts tx (txs (miner w)))).
  { destruct H as [H|H].
    - now apply onTxPre_rounds.
    - apply handleEvent_TxPre in H. destruct H as (w1 & M & R1 & H).
      apply onTxPre_rounds in H. now rewrite M, R1 in H. }
  split.
  - intro N. now rewrite R, restarts_unknown.
  - intros pre ctx post E N X. rewrite R, E. now rewrite restarts_known.
Qed.

Lemma pending_transaction_starts_a_round_per_passed_witness :
  handleEvent sim (TxPreEvent txC) before_head
    = Done (landed (handleEvent sim (TxPreEvent txC) before_head)
                   before_head) /\
  rounds (landed (handleEvent sim (TxPreEvent txC) before_head) before_head)
    = rounds before_head ++ repeat Spawned 2.
Proof.
  assert (H : handleEvent sim (TxPreEvent txC) before_head
              = Done (landed (handleEvent sim (TxPreEvent txC) before_head)
                             before_head)) by run_it.
  destruct (@pending_transaction_starts_a_round_per_passed _ _ sim txC _ _
              (or_intror H)) as (A & _).
  split; [exact H|].
  apply A. simpl. intros [E|[E|[]]]; discriminate.
Defined.

(** X5: the new-block case starts exactly one mineNewBlock goroutine and
    leaves the rounds there were, the blocks and the pool alone.  It changes
    at most one working set: for the chain's head only the transactions,
    which stay unique by hash if they were; otherwise only the uncles. *)
Theorem new_block_restarts_once
  (Chain Pool : Type) (eth : EthManager Chain Pool)
  (b : Block.t) (w : World Chain Pool) :
  rounds (onNewBlock eth b w) = rounds w ++ [Spawned] /\
  blocks (onNewBlock eth b w) = blocks w /\
  pool (onNewBlock eth b w) = pool w /\
  (Block.Hash (CurrentBlock eth (chain w)) = Block.Hash b ->
   uncles (miner (onNewBlock eth b w)) = uncles (miner w) /\
   (NoDup (hashes (txs (miner w))) ->
    NoDup (hashes (txs (miner (onNewBlock eth b w)))))) /\
  (Block.Hash (CurrentBlock eth (chain w)) <> Block.Hash b ->
   txs (miner (onNewBlock eth b w)) = txs (miner w)).
Proof.
  destruct (onNewBlock_sets eth b w) as [T U].
  assert (F : rounds (onNewBlock eth b w) = rounds w ++ [Spawned] /\
              blocks (onNewBlock eth b w) = blocks w /\
              pool (onNewBlock eth b w) = pool w).
  { unfold onNewBlock.
    match goal with |- context [startMining ?x] =>
      destruct (startMining_frame x) as (_ & _ & _ & Bs & _ & P & _ & R) end.
    rewrite R, Bs, P.
    destruct (Bytes.same (Block.Hash _) (Block.Hash b));
      [|destruct (Bytes.same (Block.PrevHash b) _)];
      open_world; repeat split; reflexivity. }
  destruct F as (R & Bs & P).
  repeat split; try assumption.
  - apply same_true in H. now rewrite H in U.
  - intro D. apply same_true in H. rewrite H in T. rewrite T.
    now apply NoDup_hashes_filter.
  - intro N. apply same_false in N. now rewrite N in T.
Qed.


Lemma nth_error_list_set (A : Type) (l : list A) (i : nat) (x y : A) :
  nth_error l i = Some x -> nth_error (list_set l i y) i = Some y.
Proof.
  revert i; induction l as [|a l IH]; intros [|i] H; simpl in *;
    try discriminate; auto.
Qed.

Section ReturnFacts.

Variables Chain Pool : Type.
Variable eth : EthManager Chain Pool.

Lemma the_block_on_block (f : Block.t -> Block.t) (w : World Chain Pool)
  (b : Block.t) :
  the_block w = Some b -> the_block (on_block f w) = Some (f b).
Proof.
  unfold the_block, on_block. destruct (block (miner w)) as [p|] eqn:P;
    [|discriminate].
  intro H. rewrite H. simpl. rewrite P. now apply nth_error_list_set with b.
Qed.

(** mineNewBlock after a nonce has come back, as one equation. *)
Lemma mineNewBlock_return_Some (i : nat) (n : list byte)
  (w : World Chain Pool) (b : Block.t) :
  the_block w = Some b ->
  exists w',
    mineNewBlock_return eth i (Some n) w = Done w' /\
    rounds w' = list_set (rounds w ++ [Spawned]) i Returned /\
    chain w' = snd (Process eth (chain w) (Block.SetNonce n b)) /\
    pool w' = pool w /\
    the_block w' = Some (Block.SetNonce n b) /\
    txs (miner w') =
      match fst (Process eth (chain w) (Block.SetNonce n b)) with
      | Some _ => txs (miner w)
      | None => CurrentTransactions eth (pool w)
      end /\
    out w' =
      out w ++
      match fst (Process eth (chain w) (Block.SetNonce n b)) with
      | Some x => [Log (Infoln_err x)]
      | None =>
          [Broadcast (Block.SetNonce n b);
           Log (Infof_mined (Block.Hash (Block.SetNonce n b)));
           Log (Infoln_block (Block.SetNonce n b));
           Post_NewBlockEvent (Block.SetNonce n b)]
      end.
Proof.
  intro B. unfold mineNewBlock_return.
  pose proof (the_block_on_block (Block.SetNonce n) _ B) as B1.
  destruct (on_block_frame (Block.SetNonce n) w)
    as (M & R & _ & O & P & C & _).
  remember (on_block (Block.SetNonce n) w) as w1 eqn:E1. clear E1.
  rewrite B1, C.
  destruct (Process eth (chain w) (Block.SetNonce n b)) as [e c] eqn:E.
  cbv zeta.
  match goal with |- context [startMining ?x] => remember x as w3 eqn:E3 end.
  destruct (startMining_frame w3) as (T' & _ & K' & Bs' & C' & P' & O' & R').
  assert (TB : the_block (startMining w3) = the_block w3)
    by (unfold the_block; now rewrite K', Bs').
  remember (startMining w3) as w5 eqn:E5. clear E5.
  eexists. split; [reflexivity|].
  unfold with_rounds, the_block in *.
  cbn [rounds chain pool miner out blocks fst snd].
  rewrite R', C', P', T', O', TB. clear R' C' P' T' O' TB K' Bs' w5.
  subst w3.
  destruct e;
    cbn [rounds chain pool miner out blocks txs block
         emit with_out with_chain on_miner Miner_txs];
    repeat split; try exact B1;
    rewrite ?M, ?R, ?O, ?P, <- ?app_assoc; reflexivity.
Qed.

End ReturnFacts.

(** X7: a block whose nonce was found but which Process rejects is neither
    broadcast nor posted: the error is logged, the miner's transactions and
    the pool stay as they are, and mining goes on with one new round. *)
Theorem rejected_block_is_not_broadcast
  (Chain Pool : Type) (eth : EthManager Chain Pool)
  (i : nat) (n : list byte) (w : World Chain Pool) (b : Block.t)
  (x : error) (c : Chain) :
  the_block w = Some b ->
  Process eth (chain w) (Block.SetNonce n b) = (Some x, c) ->
  exists w',
    mineNewBlock_return eth i (Some n) w = Done w' /\
    out w' = out w ++ [Log (Infoln_err x)] /\
    txs (miner w') = txs (miner w) /\
    pool w' = pool w /\
    chain w' = c /\
    rounds w' = list_set (rounds w ++ [Spawned]) i Returned.
Proof.
  intros B E.
  destruct (mineNewBlock_return_Some eth i n w B)
    as (w' & H & R & C & P & _ & T & O).
  rewrite E in *. simpl in *. exists w'. repeat split; assumption.
Qed.

(** X8: a block whose nonce was found and which Process accepts is broadcast
    and then posted as NewBlockEvent, the same block both times, carrying the
    nonce; the miner's transactions become what the pool holds, and mining
    goes on with one new round. *)
Theorem accepted_block_is_broadcast_then_posted
  (Chain Pool : Type) (eth : EthManager Chain Pool)
  (i : nat) (n : list byte) (w : World Chain Pool) (b : Block.t) (c : Chain) :
  the_block w = Some b ->
  Process eth (chain w) (Block.SetNonce n b) = (None, c) ->
  exists w',
    mineNewBlock_return eth i (Some n) w = Done w' /\
    out w' =
      out w ++ [Broadcast (Block.SetNonce n b);
                Log (Infof_mined (Block.Hash (Block.SetNonce n b)));
                Log (Infoln_block (Block.SetNonce n b));
                Post_NewBlockEvent (Block.SetNonce n b)] /\
    Block.Nonce (Block.SetNonce n b) = Some n /\
    txs (miner w') = CurrentTransactions eth (pool w) /\
    pool w' = pool w /\
    chain w' = c /\
    rounds w' = list_set (rounds w ++ [Spawned]) i Returned.
Proof.
  intros B E.
  destruct (mineNewBlock_return_Some eth i n w B)
    as (w' & H & R & C & P & _ & T & O).
  rewrite E in *. simpl in *. exists w'. repeat split; assumption.
Qed.

Lemma rejected_block_is_not_broadcast_witness :
  the_block running = Some Rejecting.template /\
  Process Rejecting.strict (chain running)
          (Block.SetNonce [x07] Rejecting.template)
    = (Some "invalid block"%string, genesis) /\
  exists w',
    mineNewBlock_return Rejecting.strict 0 (Some [x07]) running = Done w' /\
    out w' = out running ++ [Log (Infoln_err "invalid block"%string)] /\
    txs (miner w') = txs (miner running) /\
    pool w' = pool running /\
    chain w' = genesis /\
    rounds w' = list_set (rounds running ++ [Spawned]) 0 Returned.
Proof.
  assert (B : the_block running = Some Rejecting.template) by reflexivity.
  assert (E : Process Rejecting.strict (chain running)
                      (Block.SetNonce [x07] Rejecting.template)
              = (Some "invalid block"%string, genesis)) by reflexivity.
  split; [exact B|]. split; [exact E|].
  exact (@rejected_block_is_not_broadcast _ _ Rejecting.strict 0 [x07]
           running Rejecting.template "invalid block"%string genesis B E).
Defined.

Lemma accepted_block_is_broadcast_then_posted_witness :
  the_block running = Some Rejecting.template /\
  Process sim (chain running) (Block.SetNonce [x07] Rejecting.template)
    = (None, Block.SetNonce [x07] Rejecting.template) /\
  exists w',
    mineNewBlock_return sim 0 (Some [x07]) running = Done w' /\
    out w' =
      out running ++
      [Broadcast (Block.SetNonce [x07] Rejecting.template);
       Log (Infof_mined
              (Block.Hash (Block.SetNonce [x07] Rejecting.template)));
       Log (Infoln_block (Block.SetNonce [x07] Rejecting.template));
       Post_NewBlockEvent (Block.SetNonce [x07] Rejecting.template)] /\
    txs (miner w') = [] /\
    rounds w' = [Returned; Spawned].
Proof.
  assert (B : the_block running = Some Rejecting.template) by reflexivity.
  assert (E : Process sim (chain running)
                      (Block.SetNonce [x07] Rejecting.template)
              = (None, Block.SetNonce [x07] Rejecting.template))
    by reflexivity.
  split; [exact B|]. split; [exact E|].
  destruct (@accepted_block_is_broadcast_then_posted _ _ sim 0 [x07]
              running Rejecting.template _ B E)
    as (w' & H & O & _ & T & _ & _ & R).
  exists w'. split; [exact H|]. split; [exact O|].
  split; [exact T | exact R].
Defined.

(** X9: ToggleTurbo called twice gives the miner its turbo setting back and
    changes nothing else; the engine is told the opposite setting and then
    the original one. *)
Theorem ToggleTurbo_twice_restores
  (Chain Pool : Type) (w : World Chain Pool) :
  ToggleTurbo (ToggleTurbo w) =
  with_out (out w ++ [Turbo (negb (turbo (miner w))); Turbo (turbo (miner w))])
           w.
Proof.
  destruct w as [[cb t u bp ev q d tb] ch bl rs ls ss p c o].
  unfold ToggleTurbo. open_world.
  now rewrite negb_involutive, <- app_assoc.
Qed.



(** * Properties of the downloader API *)

Section StringMapFacts.

Import Downloader.

Variable V : Type.

Lemma lookup_delete (k k' : string) (m : smap V) :
  lookup k (delete k' m) = if String.eqb k' k then None else lookup k m.
Proof.
  induction m as [|[j v] m IH]; simpl.
  - now destruct (String.eqb k' k).
  - destruct (String.eqb j k') eqn:J; simpl.
    + apply String.eqb_eq in J. subst j. rewrite IH.
      now destruct (String.eqb k' k).
    + destruct (String.eqb j k) eqn:K; [|exact IH].
      apply String.eqb_eq in K. subst j.
      rewrite String.eqb_sym in J. now rewrite J.
Qed.

Lemma lookup_None_keys (k : string) (m : smap V) :
  lookup k m = None <-> ~ In k (keys m).
Proof.
  induction m as [|[j v] m IH]; simpl.
  - split; [intros _ F; exact F | reflexivity].
  - destruct (String.eqb j k) eqn:J.
    + apply String.eqb_eq in J. split; [discriminate|].
      intro N. exfalso. apply N. left. exact J.
    + apply String.eqb_neq in J. rewrite IH. split.
      * intros N [E|I]; [exact (J E) | exact (N I)].
      * intros N I. apply N. right. exact I.
Qed.

Lemma keys_delete (k : string) (m : smap V) (j : string) :
  In j (keys (delete k m)) -> In j (keys m).
Proof.
  unfold keys, delete. intro H. apply in_map_iff in H.
  destruct H as (e & E & H). apply filter_In in H.
  apply in_map_iff. exists e. split; [exact E | exact (proj1 H)].
Qed.

Lemma NoDup_keys_delete (k : string) (m : smap V) :
  NoDup (keys m) -> NoDup (keys (delete k m)).
Proof.
  induction m as [|[j v] m IH]; simpl; intro D; [constructor|].
  inversion D as [|? ? N D']; subst.
  destruct (String.eqb j k); simpl; [now apply IH|].
  constructor; [|now apply IH].
  intro H. apply N. eapply keys_delete; eauto.
Qed.

Lemma delete_absent (k : string) (m : smap V) :
  ~ In k (keys m) -> delete k m = m.
Proof.
  induction m as [|[j v] m IH]; simpl; intro N; [reflexivity|].
  destruct (String.eqb j k) eqn:J.
  - apply String.eqb_eq in J. exfalso. apply N. left. exact J.
  - simpl. f_equal. apply IH. intro I. apply N. right. exact I.
Qed.

End StringMapFacts.

Section DownloaderFacts.

Import Downloader.

Variable Sub : Type.
Variable Notify : Sub -> Notification -> NotifyError.
Variable d_Progress : Z * Z * Z * Z * Z.

(** The loop of run, entry by entry. *)
Lemma notify_all_log (n : Notification) (todo m : smap Sub)
  (log : list (string * Notification)) :
  snd (notify_all Notify n todo m log) = log ++ map (fun e => (fst e, n)) todo.
Proof using Sub Notify.
  revert m log; induction todo as [|[id sub] r IH]; intros m log; simpl.
  - now rewrite app_nil_r.
  - destruct (Notify sub n); rewrite IH, <- app_assoc; reflexivity.
Qed.

Lemma notify_all_NoDup (n : Notification) (todo m : smap Sub)
  (log : list (string * Notification)) :
  NoDup (keys m) -> NoDup (keys (fst (notify_all Notify n todo m log))).
Proof using Sub Notify.
  revert m log; induction todo as [|[id sub] r IH]; intros m log D; simpl.
  - exact D.
  - destruct (Notify sub n); apply IH; try exact D.
    now apply NoDup_keys_delete.
Qed.

Lemma notify_all_lookup (n : Notification) (k : string) (todo m : smap Sub)
  (log : list (string * Notification)) :
  lookup k (fst (notify_all Notify n todo m log)) =
    if dropped Notify n k todo then None else lookup k m.
Proof using Sub Notify.
  revert m log; induction todo as [|[id sub] r IH]; intros m log; simpl.
  - reflexivity.
  - destruct (Notify sub n) eqn:E; rewrite IH; simpl;
      rewrite ?andb_false_r, ?andb_true_r; simpl; try reflexivity.
    rewrite lookup_delete.
    destruct (String.eqb id k); simpl; [|reflexivity].
    now destruct (dropped Notify n k r).
Qed.

Lemma dropped_lookup (n : Notification) (k : string) (m : smap Sub) :
  NoDup (keys m) ->
  dropped Notify n k m =
    match lookup k m with
    | Some sub => is_not_found (Notify sub n)
    | None => false
    end.
Proof using Sub Notify.
  induction m as [|[id sub] r IH]; simpl; intro D; [reflexivity|].
  inversion D as [|? ? N D']; subst.
  destruct (String.eqb id k) eqn:E; simpl; [|now apply IH].
  apply String.eqb_eq in E. subst id.
  destruct (is_not_found (Notify sub n)); [reflexivity|]. simpl.
  rewrite (IH D').
  apply lookup_None_keys in N. now rewrite N.
Qed.

(** One turn of run, by key. *)
Lemma run_event_lookup (e : EventData) (api : API Sub) (k : string) :
  NoDup (keys (syncSubscriptions api)) ->
  lookup k (syncSubscriptions (run_event Notify d_Progress e api)) =
    match lookup k (syncSubscriptions api) with
    | Some sub =>
        if is_not_found (Notify sub (notification_for d_Progress e))
        then None else Some sub
    | None => None
    end.
Proof using Sub Notify d_Progress.
  intro D. unfold run_event.
  pose proof (notify_all_lookup (notification_for d_Progress e) k
                (syncSubscriptions api) (syncSubscriptions api)
                (notified api)) as L.
  destruct (notify_all _ _ _ _ _) as [m log]. simpl in L |- *.
  rewrite L, dropped_lookup by exact D.
  destruct (lookup k (syncSubscriptions api)); [|reflexivity].
  now destruct (is_not_found _).
Qed.

Lemma run_event_NoDup (e : EventData) (api : API Sub) :
  NoDup (keys (syncSubscriptions api)) ->
  NoDup (keys (syncSubscriptions (run_event Notify d_Progress e api))).
Proof using Sub Notify d_Progress.
  intro D. unfold run_event.
  pose proof (@notify_all_NoDup (notification_for d_Progress e)
                (syncSubscriptions api) (syncSubscriptions api)
                (notified api) D) as N.
  destruct (notify_all _ _ _ _ _) as [m log]. exact N.
Qed.

End DownloaderFacts.

(** X11: one turn of run notifies every subscription once, all with the same
    notification, and afterwards the map holds exactly the subscriptions for
    which Notify did not answer ErrNotificationNotFound: those are deleted,
    any other error keeps the subscription. *)
Theorem run_event_drops_the_not_found
  (Sub : Type) (Notify : Sub -> Downloader.Notification -> Downloader.NotifyError)
  (d_Progress : Z * Z * Z * Z * Z)
  (e : Downloader.EventData) (api : Downloader.API Sub) :
  NoDup (Downloader.keys (Downloader.syncSubscriptions api)) ->
  (forall k,
      Downloader.lookup k
        (Downloader.syncSubscriptions
           (Downloader.run_event Notify d_Progress e api)) =
      match Downloader.lookup k (Downloader.syncSubscriptions api) with
      | Some sub =>
          match Notify sub (Downloader.notification_for d_Progress e) with
          | Downloader.ErrNotificationNotFound => None
          | _ => Some sub
          end
      | None => None
      end) /\
  NoDup (Downloader.keys
           (Downloader.syncSubscriptions
              (Downloader.run_event Notify d_Progress e api))) /\
  Downloader.notified (Downloader.run_event Notify d_Progress e api) =
    Downloader.notified api
      ++ map (fun x => (fst x, Downloader.notification_for d_Progress e))
             (Downloader.syncSubscriptions api).
Proof.
  intro D. split; [|split].
  - intro k. rewrite run_event_lookup by exact D.
    destruct (Downloader.lookup k _); [|reflexivity].
    now destruct (Notify s _).
  - now apply run_event_NoDup.
  - unfold Downloader.run_event.
    pose proof (@notify_all_log _ Notify
                  (Downloader.notification_for d_Progress e)
                  (Downloader.syncSubscriptions api)
                  (Downloader.syncSubscriptions api)
                  (Downloader.notified api)) as L.
    destruct (Downloader.notify_all _ _ _ _ _) as [m log]. exact L.
Qed.

Lemma run_event_drops_the_not_found_witness :
  NoDup (Downloader.keys
           (Downloader.syncSubscriptions DownloaderScenario.two_subs)) /\
  Downloader.syncSubscriptions
    (Downloader.run_event DownloaderScenario.sub_Notify
       DownloaderScenario.progress Downloader.DoneEvent
       DownloaderScenario.two_subs) =
    [("a"%string, ("a"%string, true))] /\
  Downloader.notified
    (Downloader.run_event DownloaderScenario.sub_Notify
       DownloaderScenario.progress Downloader.DoneEvent
       DownloaderScenario.two_subs) =
    [("a"%string, Downloader.False); ("b"%string, Downloader.False)].
Proof.
  assert (D : NoDup (Downloader.keys
                       (Downloader.syncSubscriptions
                          DownloaderScenario.two_subs))).
  { simpl. repeat constructor; simpl; intuition discriminate. }
  destruct (@run_event_drops_the_not_found _ DownloaderScenario.sub_Notify
              DownloaderScenario.progress Downloader.DoneEvent
              DownloaderScenario.two_subs D) as (_ & _ & L).
  split; [exact D|]. split; [reflexivity|]. rewrite L. reflexivity.
Defined.

(** X12: run never adds a subscription, whatever events it is given: what is
    in the map afterwards was in it before, under the same id; and a
    subscription for which Notify never answers ErrNotificationNotFound is
    never removed by it. *)
Theorem run_only_removes
  (Sub : Type) (Notify : Sub -> Downloader.Notification -> Downloader.NotifyError)
  (d_Progress : Z * Z * Z * Z * Z)
  (es : list Downloader.EventData) (api : Downloader.API Sub) :
  NoDup (Downloader.keys (Downloader.syncSubscriptions api)) ->
  (forall k sub,
      Downloader.lookup k
        (Downloader.syncSubscriptions (Downloader.run Notify d_Progress es api))
        = Some sub ->
      Downloader.lookup k (Downloader.syncSubscriptions api) = Some sub) /\
  (forall k sub,
      Downloader.lookup k (Downloader.syncSubscriptions api) = Some sub ->
      (forall n, Notify sub n <> Downloader.ErrNotificationNotFound) ->
      Downloader.lookup k
        (Downloader.syncSubscriptions (Downloader.run Notify d_Progress es api))
        = Some sub).
Proof.
  unfold Downloader.run.
  revert api; induction es as [|e es IH]; intros api D; simpl.
  - split; auto.
  - destruct (IH _ (@run_event_NoDup _ Notify d_Progress e api D)) as [A B].
    split.
    + intros k sub H. apply A in H.
      rewrite run_event_lookup in H by exact D.
      destruct (Downloader.lookup k (Downloader.syncSubscriptions api));
        [|discriminate].
      destruct (Downloader.is_not_found _); [discriminate|exact H].
    + intros k sub H N. apply B; [|exact N].
      rewrite run_event_lookup by exact D. rewrite H.
      specialize (N (Downloader.notification_for d_Progress e)).
      now destruct (Notify sub _).
Qed.

Lemma run_only_removes_witness :
  NoDup (Downloader.keys
           (Downloader.syncSubscriptions DownloaderScenario.two_subs)) /\
  Downloader.lookup "a"%string
    (Downloader.syncSubscriptions
       (Downloader.run DownloaderScenario.sub_Notify
          DownloaderScenario.progress
          [Downloader.StartEvent; Downloader.DoneEvent]
          DownloaderScenario.two_subs)) = Some ("a"%string, true).
Proof.
  assert (D : NoDup (Downloader.keys
                       (Downloader.syncSubscriptions
                          DownloaderScenario.two_subs))).
  { simpl. repeat constructor; simpl; intuition discriminate. }
  destruct (@run_only_removes _ DownloaderScenario.sub_Notify
              DownloaderScenario.progress
              [Downloader.StartEvent; Downloader.DoneEvent]
              DownloaderScenario.two_subs D) as [_ B].
  split; [exact D|].
  apply B; [reflexivity|]. intro n. discriminate.
Defined.



(** X14: subscribing under an id the map does not hold and then running the
    unsubscribe function Syncing registered, with that id, gives back the API
    as it was before Syncing. *)
Theorem Syncing_then_unsubscribe_restores
  (Sub Notifier : Type) (ID : Sub -> string)
  (NewSubscription : Notifier -> Sub + string)
  (notifier : Notifier) (sub : Sub) (api : Downloader.API Sub) :
  NewSubscription notifier = inl sub ->
  Downloader.lookup (ID sub) (Downloader.syncSubscriptions api) = None ->
  Downloader.unsubscribed (ID sub)
    (snd (Downloader.Syncing ID NewSubscription (Some notifier) api)) = api.
Proof.
  intros E N. unfold Downloader.Syncing, Downloader.unsubscribed.
  rewrite E. simpl. rewrite String.eqb_refl. simpl.
  apply lookup_None_keys in N.
  rewrite !(@delete_absent _ (ID sub) (Downloader.syncSubscriptions api) N).
  now destruct api.
Qed.

Lemma Syncing_then_unsubscribe_restores_witness :
  DownloaderScenario.new_sub ("c"%string, true) = inl ("c"%string, true) /\
  Downloader.lookup (DownloaderScenario.sub_ID ("c"%string, true))
    (Downloader.syncSubscriptions DownloaderScenario.two_subs) = None /\
  Downloader.unsubscribed "c"%string
    (snd (Downloader.Syncing DownloaderScenario.sub_ID
            DownloaderScenario.new_sub (Some ("c"%string, true))
            DownloaderScenario.two_subs)) = DownloaderScenario.two_subs.
Proof.
  split; [reflexivity|]. split; [reflexivity|].
  exact (@Syncing_then_unsubscribe_restores _ _ DownloaderScenario.sub_ID
           DownloaderScenario.new_sub ("c"%string, true) ("c"%string, true)
           DownloaderScenario.two_subs eq_refl eq_refl).
Defined.

(** * Properties of the Ethereum service *)

Lemma length_fmt_x (bs : list byte) :
  String.length (Ethereum.fmt_x bs) = (2 * length bs)%nat.
Proof. induction bs as [|b r IH]; simpl; [reflexivity|]. rewrite IH. lia. Qed.

Lemma unhex_step (b : byte) (r : string) :
  Ethereum.unhex
    (String (Ethereum.hex_digit (Byte.to_N b / 16))
            (String (Ethereum.hex_digit (Byte.to_N b mod 16)) r)) =
  match Ethereum.unhex r with
  | Some bs => Some (b :: bs)
  | None => None
  end.
Proof.
  destruct b; cbn -[Ethereum.unhex];
    change (Ethereum.unhex (String ?h (String ?l r)))
      with (match Ethereum.hex_value h, Ethereum.hex_value l,
                  Ethereum.unhex r with
            | Some a, Some b, Some bs =>
                match Byte.of_N (a * 16 + b) with
                | Some x => Some (x :: bs)
                | None => None
                end
            | _, _, _ => None
            end);
    cbn -[Ethereum.unhex]; destruct (Ethereum.unhex r); reflexivity.
Qed.

(** %x can be read back: it loses nothing of the bytes. *)
Lemma unhex_fmt_x (bs : list byte) :
  Ethereum.unhex (Ethereum.fmt_x bs) = Some bs.
Proof.
  induction bs as [|b r IH]; [reflexivity|].
  change (Ethereum.fmt_x (b :: r))
    with (String (Ethereum.hex_digit (Byte.to_N b / 16))
            (String (Ethereum.hex_digit (Byte.to_N b mod 16))
               (Ethereum.fmt_x r))).
  now rewrite unhex_step, IH.
Qed.

Lemma fmt_x_inj (a b : list byte) :
  Ethereum.fmt_x a = Ethereum.fmt_x b -> a = b.
Proof.
  intro H. apply (f_equal Ethereum.unhex) in H.
  rewrite !unhex_fmt_x in H. now inversion H.
Qed.

Lemma append_inj_l (p a b : string) :
  (p ++ a)%string = (p ++ b)%string -> a = b.
Proof.
  induction p as [|c p IH]; simpl; intro H; [exact H|].
  inversion H. now apply IH.
Qed.

Lemma length_append (a b : string) :
  String.length (a ++ b)%string = (String.length a + String.length b)%nat.
Proof. induction a as [|c a IH]; simpl; [reflexivity|]. now rewrite IH. Qed.

(** X15: dagFiles panics when the seed hash has fewer than 8 bytes, and
    otherwise returns the name "full-R23-" followed by the first 8 bytes of
    the seed hash in 16 hexadecimal digits, 25 characters in all, and the
    same name with another "full-R" in front. *)
Theorem dagFiles_names
  (GetSeedHash : Z -> list byte * option error) (epoch : Z) :
  ((length (fst (GetSeedHash
                   (Ethereum.uint64 (epoch * Ethereum.epochLength)))) < 8)%nat ->
   Ethereum.dagFiles GetSeedHash epoch = None) /\
  ((8 <= length (fst (GetSeedHash
                        (Ethereum.uint64 (epoch * Ethereum.epochLength)))))%nat ->
   exists dag,
     Ethereum.dagFiles GetSeedHash epoch = Some (dag, ("full-R" ++ dag)%string) /\
     dag = ("full-R23-" ++
            Ethereum.fmt_x
              (firstn 8 (fst (GetSeedHash
                                (Ethereum.uint64
                                   (epoch * Ethereum.epochLength))))))%string /\
     String.length dag = 25%nat /\
     String.length ("full-R" ++ dag)%string = 31%nat).
Proof.
  unfold Ethereum.dagFiles.
  destruct (GetSeedHash _) as [seed e]. simpl fst. split; intro H.
  - apply Nat.ltb_lt in H. now rewrite H.
  - assert (L : (length seed <? 8)%nat = false) by now apply Nat.ltb_ge.
    rewrite L. eexists. split; [reflexivity|].
    assert (X : String.length
                  ("full-R23-" ++ Ethereum.fmt_x (firstn 8 seed))%string
                = 25%nat).
    { rewrite length_append, length_fmt_x, length_firstn.
      rewrite Nat.min_l by exact H. reflexivity. }
    split; [reflexivity|]. split; [exact X|].
    change (String.length
              ("full-R" ++ ("full-R23-" ++
                            Ethereum.fmt_x (firstn 8 seed)))%string = 31%nat).
    rewrite length_append, X. reflexivity.
Qed.

Lemma dagFiles_names_witness :
  (8 <= length (fst (MipmapScenario.seed
                       (Ethereum.uint64 (7 * Ethereum.epochLength)))))%nat /\
  Ethereum.dagFiles MipmapScenario.seed 7 =
    Some ("full-R23-deadbeef00000000"%string,
          "full-Rfull-R23-deadbeef00000000"%string).
Proof.
  assert (H : (8 <= length (fst (MipmapScenario.seed
                                   (Ethereum.uint64
                                      (7 * Ethereum.epochLength)))))%nat)
    by (simpl; lia).
  split; [exact H|].
  destruct (proj2 (dagFiles_names MipmapScenario.seed 7) H)
    as (dag & E & D & _).
  rewrite E, D. reflexivity.
Defined.

(** X16: two epochs get the same DAG file names exactly when their seed
    hashes agree on the first 8 bytes: the names hold those bytes and
    nothing else of the seed hash. *)
Theorem dagFiles_names_tell_the_seed_prefix
  (GetSeedHash : Z -> list byte * option error) (e1 e2 : Z)
  (n1 n2 : string * string) :
  Ethereum.dagFiles GetSeedHash e1 = Some n1 ->
  Ethereum.dagFiles GetSeedHash e2 = Some n2 ->
  (n1 = n2 <->
   firstn 8 (fst (GetSeedHash (Ethereum.uint64 (e1 * Ethereum.epochLength)))) =
   firstn 8 (fst (GetSeedHash (Ethereum.uint64 (e2 * Ethereum.epochLength))))).
Proof.
  unfold Ethereum.dagFiles.
  destruct (GetSeedHash (Ethereum.uint64 (e1 * _))) as [s1 x1].
  destruct (GetSeedHash (Ethereum.uint64 (e2 * _))) as [s2 x2]. simpl fst.
  destruct (length s1 <? 8)%nat; [discriminate|].
  destruct (length s2 <? 8)%nat; [discriminate|].
  generalize (firstn 8 s1) (firstn 8 s2). intros f1 f2.
  intros [= <-] [= <-]. split.
  - intro H. apply (f_equal fst) in H. cbn [fst] in H.
    change (("full-R23-" ++ Ethereum.fmt_x f1)%string =
            ("full-R23-" ++ Ethereum.fmt_x f2)%string) in H.
    apply append_inj_l in H. now apply fmt_x_inj.
  - intros ->. reflexivity.
Qed.

Lemma dagFiles_names_tell_the_seed_prefix_witness :
  Ethereum.dagFiles MipmapScenario.seed 1 =
    Some ("full-R23-deadbeef00000000"%string,
          "full-Rfull-R23-deadbeef00000000"%string) /\
  Ethereum.dagFiles MipmapScenario.seed 2 =
    Some ("full-R23-deadbeef00000000"%string,
          "full-Rfull-R23-deadbeef00000000"%string) /\
  firstn 8 (fst (MipmapScenario.seed
                   (Ethereum.uint64 (1 * Ethereum.epochLength)))) =
  firstn 8 (fst (MipmapScenario.seed
                   (Ethereum.uint64 (2 * Ethereum.epochLength)))).
Proof.
  assert (A : Ethereum.dagFiles MipmapScenario.seed 1 =
              Some ("full-R23-deadbeef00000000"%string,
                    "full-Rfull-R23-deadbeef00000000"%string))
    by reflexivity.
  assert (B : Ethereum.dagFiles MipmapScenario.seed 2 =
              Some ("full-R23-deadbeef00000000"%string,
                    "full-Rfull-R23-deadbeef00000000"%string))
    by reflexivity.
  split; [exact A|]. split; [exact B|].
  exact (proj1 (dagFiles_names_tell_the_seed_prefix
                  MipmapScenario.seed 1 2 A B) eq_refl).
Defined.

(** X17: dagFiles multiplies the epoch by 30000 in uint64 arithmetic, where
    the product goes round at 2^64: epochs that are a multiple of 2^60 apart
    ask for the seed hash of the same block and get the same names. *)
Theorem dagFiles_epoch_wraps
  (GetSeedHash : Z -> list byte * option error) (epoch k : Z) :
  0 <= epoch -> 0 <= k -> epoch + k * 2 ^ 60 < 2 ^ 64 ->
  Ethereum.dagFiles GetSeedHash (epoch + k * 2 ^ 60) =
  Ethereum.dagFiles GetSeedHash epoch.
Proof.
  intros _ _ _. unfold Ethereum.dagFiles.
  replace (Ethereum.uint64 ((epoch + k * 2 ^ 60) * Ethereum.epochLength))
    with (Ethereum.uint64 (epoch * Ethereum.epochLength)); [reflexivity|].
  unfold Ethereum.uint64, Ethereum.epochLength.
  replace ((epoch + k * 2 ^ 60) * 30000)
    with (epoch * 30000 + (k * 1875) * 2 ^ 64) by (change (2 ^ 64) with (2 ^ 60 * 16); ring).
  now rewrite Z.mod_add by lia.
Qed.

Lemma dagFiles_epoch_wraps_witness :
  0 <= 5 /\ 0 <= 3 /\ 5 + 3 * 2 ^ 60 < 2 ^ 64 /\
  Ethereum.dagFiles MipmapScenario.seed (5 + 3 * 2 ^ 60) =
  Ethereum.dagFiles MipmapScenario.seed 5.
Proof.
  assert (A : 0 <= 5) by lia.
  assert (B : 0 <= 3) by lia.
  assert (C : 5 + 3 * 2 ^ 60 < 2 ^ 64) by lia.
  split; [exact A|]. split; [exact B|]. split; [exact C|].
  exact (@dagFiles_epoch_wraps MipmapScenario.seed 5 3 A B C).
Defined.

(** X18: Solc keeps the first compiler compiler.New gives it: once a call has
    returned a compiler, every later call returns that compiler with a nil
    error and leaves the service as it is, without asking compiler.New again;
    as long as compiler.New gives none, nothing is kept and the next call
    asks again.  SetSolc drops what was kept: its results are those of
    compiler.New on the new path. *)
Theorem Solc_keeps_the_first_compiler
  (Solidity : Type) (compiler_New : string -> option Solidity * option error)
  (s : Ethereum.t Solidity) :
  (forall c,
      fst (fst (Ethereum.Solc compiler_New s)) = Some c ->
      Ethereum.Solc compiler_New (snd (Ethereum.Solc compiler_New s)) =
      ((Some c, None), snd (Ethereum.Solc compiler_New s))) /\
  (fst (fst (Ethereum.Solc compiler_New s)) = None ->
   Ethereum.solc (snd (Ethereum.Solc compiler_New s)) = None /\
   fst (Ethereum.Solc compiler_New s) = compiler_New (Ethereum.SolcPath s)) /\
  (forall path,
      fst (Ethereum.SetSolc compiler_New path s) = compiler_New path /\
      Ethereum.SolcPath (snd (Ethereum.SetSolc compiler_New path s)) = path /\
      Ethereum.solc (snd (Ethereum.SetSolc compiler_New path s)) =
        fst (compiler_New path)).
Proof.
  split; [|split].
  - intros c H. unfold Ethereum.Solc in *.
    destruct (Ethereum.solc s) as [c0|] eqn:E.
    + simpl in *. rewrite E. now inversion H.
    + destruct (compiler_New (Ethereum.SolcPath s)) as [c1 e1].
      simpl in *. now subst c1.
  - intro H. unfold Ethereum.Solc in *.
    destruct (Ethereum.solc s) as [c0|] eqn:E; [discriminate|].
    destruct (compiler_New (Ethereum.SolcPath s)) as [c1 e1].
    simpl in *. now subst c1.
  - intro path. unfold Ethereum.SetSolc, Ethereum.Solc. simpl.
    destruct (compiler_New path) as [c1 e1]. simpl. auto.
Qed.

(** X19: WaitForShutdown returns only after Stop: on a service whose
    shutdown channel is open it parks, and once Stop has run it returns at
    once, every time, changing nothing.  Stop makes its six calls in the
    order of the source and closes the channel; a second Stop panics on the
    closed channel. *)
Theorem second_Stop_of_the_service_panics
  (Solidity : Type) (s : Ethereum.t Solidity) (c : nat) :
  Ethereum.shutdownChan s = Some c ->
  nth_error (Ethereum.chans s) c = Some (Chan.Open 0) ->
  Ethereum.WaitForShutdown s = Parks /\
  exists s1,
    Ethereum.Stop s = Done s1 /\
    Ethereum.calls s1 =
      Ethereum.calls s ++
      [Ethereum.blockchain_Stop; Ethereum.protocolManager_Stop;
       Ethereum.txPool_Stop; Ethereum.eventMux_Stop;
       Ethereum.chainDb_Close; Ethereum.dappDb_Close] /\
    Ethereum.WaitForShutdown s1 = Done s1 /\
    Ethereum.Stop s1 = Panics.
Proof.
  intros E H. unfold Ethereum.WaitForShutdown, Ethereum.Stop.
  unfold Chan.recv, Chan.close. rewrite E, H. split; [reflexivity|].
  eexists. split; [reflexivity|]. simpl. rewrite ?E.
  assert (X : nth_error (Chan.update (Ethereum.chans s) c Chan.Closed) c
              = Some Chan.Closed).
  { clear E. revert c H.
    induction (Ethereum.chans s) as [|x l IH]; intros [|c] H; simpl in *;
      try discriminate; auto. }
  rewrite X. repeat split; reflexivity.
Qed.

Lemma second_Stop_of_the_service_panics_witness :
  Ethereum.shutdownChan (Ethereum.New_fields unit "solc")
    = Some 0%nat /\
  Ethereum.WaitForShutdown (Ethereum.New_fields unit "solc")
    = Parks /\
  exists s1,
    Ethereum.Stop (Ethereum.New_fields unit "solc") = Done s1 /\
    Ethereum.WaitForShutdown s1 = Done s1 /\
    Ethereum.Stop s1 = Panics.
Proof.
  destruct (@second_Stop_of_the_service_panics unit
              (Ethereum.New_fields unit "solc") 0%nat eq_refl eq_refl)
    as (W & s1 & S & _ & W1 & S1).
  split; [reflexivity|]. split; [exact W|].
  exists s1. split; [exact S|]. split; [exact W1 | exact S1].
Defined.

Section MipmapFacts.

Variables DB Receipts : Type.
Variable core : Ethereum.ChainDb DB Receipts.

(** The loop after [k] good turns. *)
Lemma bloom_loop_after (k rest : nat) (i : Z) (db : DB) :
  Ethereum.turns_ok core i k db = true ->
  Ethereum.bloom_loop core (k + rest)%nat i db =
  Ethereum.bloom_loop core rest (i + Z.of_nat k)
                      (Ethereum.blooms_from core i k db).
Proof.
  revert i db; induction k as [|k IH]; intros i db H.
  - simpl. now rewrite Z.add_0_r.
  - cbn [Ethereum.turns_ok] in H. apply andb_prop in H. destruct H as [Z W].
    apply negb_true_iff in Z.
    cbn [Nat.add Ethereum.bloom_loop Ethereum.blooms_from]. rewrite Z.
    destruct (Ethereum.WriteMipmapBloom core db i _) as [db' e] eqn:E.
    simpl in W. destruct e; [discriminate|]. simpl.
    rewrite IH by exact W. f_equal. lia.
Qed.


(** X21: when the canonical hash of a block up to the head is missing,
    addMipmapBloomBins stops at the first such block [k]: it has written the
    blooms of the blocks before [k], in ascending order, returns the error
    naming [k], and does not record the version, so the upgrade is tried
    again the next time. *)
Theorem addMipmapBloomBins_stops_at_missing_block
  (db : DB) (n : Z) (k : nat) :
  Ethereum.version_is_current core db = false ->
  Ethereum.latest core db = Some n ->
  Z.of_nat k <= n ->
  Ethereum.turns_ok core 0 k db = true ->
  Ethereum.GetCanonicalHash core (Ethereum.blooms_from core 0 k db)
                            (Z.of_nat k) = Ethereum.zero_hash ->
  Ethereum.addMipmapBloomBins core db =
  Ethereum.Returns (Ethereum.blooms_from core 0 k db)
                   (Some (Ethereum.Corrupted (Z.of_nat k)))
                   [Ethereum.Upgrading].
Proof.
  unfold Ethereum.addMipmapBloomBins.
  intros C L B F M. rewrite C, L.
  replace (Z.to_nat (n + 1)) with (k + S (Z.to_nat n - k))%nat by lia.
  rewrite (bloom_loop_after k (S (Z.to_nat n - k)) 0 db F).
  cbn [Ethereum.bloom_loop].
  rewrite Z.add_0_l, M.
  assert (S0 : Bytes.same Ethereum.zero_hash Ethereum.zero_hash = true)
    by now apply same_true.
  now rewrite S0.
Qed.

(** X22: when every block up to the head [n] has its canonical hash and
    every bloom is written without error, addMipmapBloomBins writes the
    blooms of the blocks 0 to [n] in ascending order and then records the
    version, the error of which is what it returns. *)
Theorem addMipmapBloomBins_upgrades_every_block (db : DB) (n : Z) :
  Ethereum.version_is_current core db = false ->
  Ethereum.latest core db = Some n ->
  0 <= n < 2 ^ 64 - 1 ->
  Ethereum.turns_ok core 0 (Z.to_nat (n + 1)) db = true ->
  Ethereum.addMipmapBloomBins core db =
  Ethereum.Returns
    (fst (Ethereum.record_version core
            (Ethereum.blooms_from core 0 (Z.to_nat (n + 1)) db)))
    (snd (Ethereum.record_version core
            (Ethereum.blooms_from core 0 (Z.to_nat (n + 1)) db)))
    [Ethereum.Upgrading; Ethereum.Completed].
Proof.
  unfold Ethereum.addMipmapBloomBins.
  intros C L B F. rewrite C, L.
  pose proof (bloom_loop_after (Z.to_nat (n + 1)) 0 0 db F) as X.
  rewrite Nat.add_0_r in X. rewrite X. cbn [Ethereum.bloom_loop].
  assert (N : (n =? 2 ^ 64 - 1) = false) by (apply Z.eqb_neq; lia).
  rewrite N. now destruct (Ethereum.record_version core _).
Qed.

End MipmapFacts.

Lemma addMipmapBloomBins_stops_at_missing_block_witness :
  Ethereum.addMipmapBloomBins MipmapScenario.core MipmapScenario.gap_at_2 =
  Ethereum.Returns (MipmapScenario.mkdb (Some 3) [2] [0; 1] [])
                   (Some (Ethereum.Corrupted 2)) [Ethereum.Upgrading].
Proof.
  exact (@addMipmapBloomBins_stops_at_missing_block _ _ MipmapScenario.core
           MipmapScenario.gap_at_2 3 2%nat
           eq_refl eq_refl ltac:(simpl; lia) eq_refl eq_refl).
Defined.

Lemma addMipmapBloomBins_upgrades_every_block_witness :
  Ethereum.addMipmapBloomBins MipmapScenario.core MipmapScenario.whole =
  Ethereum.Returns (MipmapScenario.mkdb (Some 3) [] [0; 1; 2; 3] [x02])
                   None [Ethereum.Upgrading; Ethereum.Completed].
Proof.
  exact (@addMipmapBloomBins_upgrades_every_block _ _ MipmapScenario.core
           MipmapScenario.whole 3 eq_refl eq_refl ltac:(lia) eq_refl).
Defined.

